(** * Blueprint: late-implementation function pipelines

    A shallow embedding of the blueprint engine ([blueprint.ts], the
    [makeCallable] closure and its chain methods), of the earlier
    addon-style blueprint ([blueprint({key, description, addons, init})]
    with [implement] and [addon]) and of the interface sketch
    [how-to-make-an-interface-with-addons.ts].

    JavaScript values are modelled by [data] (JSON-like data, numbers
    restricted to integers and [NaN]) and [value] (data or a promise);
    user supplied functions are arbitrary state transformers that may
    throw.  The callables of the engine, their state objects and the
    arrays these share are kept in a store ([Heap]). *)

From stdpp Require Import gmap strings list fin_maps pretty.

Set Warnings "-register-all".
Open Scope string_scope.
Open Scope list_scope.

(* ===================================================================== *)
(** ** JavaScript values *)
(* ===================================================================== *)

(** Plain data.  A number is an integer or [NaN]; [DError msg] is an
    [Error] object carrying [msg]. *)
Inductive data :=
| DUndefined
| DNull
| DBool (b : bool)
| DNum (n : Z)
| DNaN
| DStr (s : string)
| DObj (o : gmap string data)
| DArr (l : list data)
| DError (msg : string).

(** A promise is pending, fulfilled with a (non-thenable) datum, or
    rejected with a reason. *)
Inductive promise :=
| Pending
| Fulfilled (d : data)
| Rejected (e : data).

Inductive value :=
| Plain (d : data)
| Deferred (p : promise).

Coercion Plain : data >-> value.

Abbreviation record := (gmap string data).

Inductive jstype := TUndefined | TObject | TBoolean | TNumber | TString.

(** [typeof v] *)
Definition typeof (v : value) : jstype :=
  match v with
  | Plain DUndefined => TUndefined
  | Plain (DBool _) => TBoolean
  | Plain (DNum _) | Plain DNaN => TNumber
  | Plain (DStr _) => TString
  | Plain DNull | Plain (DObj _) | Plain (DArr _) | Plain (DError _) => TObject
  | Deferred _ => TObject
  end.

Definition jstype_eqb (a b : jstype) : bool :=
  match a, b with
  | TUndefined, TUndefined | TObject, TObject | TBoolean, TBoolean
  | TNumber, TNumber | TString, TString => true
  | _, _ => false
  end.

Definition isNull (v : value) : bool :=
  match v with Plain DNull => true | _ => false end.

Definition isUndefined (v : value) : bool :=
  match v with Plain DUndefined => true | _ => false end.

(** [typeof props === 'object' && props !== null] *)
Definition isObjectNotNull (v : value) : bool :=
  jstype_eqb (typeof v) TObject && negb (isNull v).

(** Truthiness, as used by [x ? a : b], [!x] and [x || y]. *)
Definition truthy (v : value) : bool :=
  match v with
  | Plain DUndefined | Plain DNull | Plain DNaN => false
  | Plain (DBool b) => b
  | Plain (DNum n) => negb (Z.eqb n 0)
  | Plain (DStr s) => negb (String.eqb s "")
  | _ => true
  end.

(** [result && typeof result.then === 'function'] *)
Definition isThenable (v : value) : bool :=
  match v with Deferred _ => true | Plain _ => false end.

Fixpoint indexed (i : nat) (l : list data) : record :=
  match l with
  | [] => ∅
  | x :: rest => <[pretty i := x]> (indexed (S i) rest)
  end.

(** The own enumerable properties copied by an object spread [{...v}]. *)
Definition spread (v : value) : record :=
  match v with
  | Plain (DObj o) => o
  | Plain (DArr l) => indexed 0 l
  | Plain (DStr s) =>
      indexed 0 (map (fun c => DStr (String c EmptyString)) (String.list_ascii_of_string s))
  | _ => ∅
  end.

(** [{...a, ...b}]: the keys of [b] override those of [a]. *)
Definition spread2 (a b : record) : record := b ∪ a.

(** [String(d)] *)
Fixpoint toString (d : data) : string :=
  match d with
  | DUndefined => "undefined"
  | DNull => "null"
  | DBool true => "true"
  | DBool false => "false"
  | DNum n => pretty n
  | DNaN => "NaN"
  | DStr s => s
  | DObj _ => "[object Object]"
  | DArr l =>
      let elements :=
        map (fun x => match x with
                      | DUndefined | DNull => ""
                      | _ => toString x
                      end) l in
      match elements with
      | [] => ""
      | first :: rest => foldl (fun acc x => acc +:+ "," +:+ x) first rest
      end
  | DError msg => if String.eqb msg "" then "Error" else "Error: " +:+ msg
  end.

(** [Number(d)] of a primitive other than a string; [None] stands for
    [NaN]. *)
Definition toNumber (d : data) : option Z :=
  match d with
  | DNull | DBool false => Some 0%Z
  | DBool true => Some 1%Z
  | DNum n => Some n
  | _ => None
  end.

(** [a + b]: concatenation when an operand is a string or an object
    (which converts to a string), the sum of the operands as numbers
    otherwise.  Sums of integers are exact, as they are in JavaScript
    while they stay below 2^53. *)
Definition jsPlus (a b : data) : data :=
  let concatenates (d : data) : bool :=
    match d with
    | DStr _ | DObj _ | DArr _ | DError _ => true
    | _ => false
    end in
  if concatenates a || concatenates b
  then DStr (toString a +:+ toString b)
  else match toNumber a, toNumber b with
       | Some x, Some y => DNum (x + y)
       | _, _ => DNaN
       end.

(* ===================================================================== *)
(** ** Effects: a world, exceptions, promises *)
(* ===================================================================== *)

(** What user code can observe and change: global variables, and the
    console.  A console entry keeps the message and the offending value
    (the dump of the configuration record is left out). *)
Record world := World {
  vars : gmap string data;
  console : list (string * value)
}.

Inductive outcome (A : Type) :=
| Ok (a : A)
| Throw (e : data).
Arguments Ok {A} a.
Arguments Throw {A} e.

Definition M (A : Type) : Type := world -> outcome A * world.

Definition ret {A} (a : A) : M A := fun w => (Ok a, w).

Definition throw {A} (e : data) : M A := fun w => (Throw e, w).

Definition bind {A B} (c : M A) (k : A -> M B) : M B :=
  fun w => match c w with
           | (Ok a, w') => k a w'
           | (Throw e, w') => (Throw e, w')
           end.

(** [try { c } catch (e) { h(e) }] *)
Definition try_catch {A} (c : M A) (h : data -> M A) : M A :=
  fun w => match c w with
           | (Ok a, w') => (Ok a, w')
           | (Throw e, w') => h e w'
           end.

Notation "'let*' x ':=' c1 'in' c2" := (bind c1 (fun x => c2))
  (at level 10, x name, c1 at level 100, c2 at level 200,
   format "'[v' 'let*'  x  ':='  c1  'in' '/' c2 ']'").

Definition console_error (msg : string) (payload : value) : M unit :=
  fun w => (Ok tt, World (vars w) (console w ++ [(msg, payload)])).

(** [Promise.resolve(v)] *)
Definition promiseResolve (v : value) : value :=
  match v with
  | Plain d => Deferred (Fulfilled d)
  | Deferred p => Deferred p
  end.

(** [p.then(onFulfilled)], with the continuation run at the point where
    the promise has settled: a fulfilled promise feeds its value to the
    continuation and the new promise adopts what it returns (a thrown
    error rejects it); a rejected or pending promise never runs it. *)
Definition then_ (p : value) (onFulfilled : value -> M value) : M value :=
  fun w =>
    match promiseResolve p with
    | Deferred (Fulfilled d) =>
        match onFulfilled (Plain d) w with
        | (Ok r, w') => (Ok (promiseResolve r), w')
        | (Throw e, w') => (Ok (Deferred (Rejected e)), w')
        end
    | other => (Ok other, w)
    end.

(** User supplied functions. *)
Definition fn := value -> M value.
Definition fn2 := value -> value -> M value.

(* ===================================================================== *)
(** ** The engine: state record and invocation protocol *)
(* ===================================================================== *)

(** [interface BlueprintState].  Keys are strings (symbol keys are not
    modelled); a schema is its [parse] method. *)
Record BlueprintState := {
  key : option string;
  description : option string;
  implementation : option fn;
  inputMappers : list fn;
  outputMappers : list fn2;
  beforeHooks : list fn;
  afterHooks : list fn2;
  defaultProviders : list fn;
  enforcedValues : record;
  isAsync : bool;
  isVoid : bool;
  validateProps : bool;
  propsSchema : option fn;
  validateResults : bool;
  resultSchema : option fn
}.

(** A string-valued optional field used as a condition: [undefined] and
    the empty string are falsy. *)
Definition truthyStr (k : option string) : bool :=
  match k with
  | Some s => negb (String.eqb s "")
  | None => false
  end.

(** An optional field holding a function or an object is truthy exactly
    when it is set. *)
Definition isDefined {A} (o : option A) : bool :=
  match o with Some _ => true | None => false end.

Definition optStr (k : option string) : string := default "undefined" k.

(** The initial [currentProps] handed to the default providers:
    [typeof props === 'object' && props !== null ? { ...props } : props],
    replaced by [{}] when [props === undefined] and there are providers. *)
Definition initialProps (currentState : BlueprintState) (props : value) : value :=
  let currentProps :=
    if isObjectNotNull props then Plain (DObj (spread props)) else props in
  if isUndefined props && negb (Nat.eqb (length (defaultProviders currentState)) 0)
  then Plain (DObj ∅)
  else currentProps.

(** The [for (const provider of currentState.defaultProviders)] loop. *)
Fixpoint resolveDefaults (providers : list fn) (currentProps : value)
    (resolvedDefaults : record) : M record :=
  match providers with
  | [] => ret resolvedDefaults
  | provider :: rest =>
      let* defaults := provider currentProps in
      resolveDefaults rest currentProps (spread2 resolvedDefaults (spread defaults))
  end.

(** [typeof props === 'object' && props !== null ? props
      : (props === undefined ? {} : { props })] *)
Definition callerRecord (props : value) : record :=
  if isObjectNotNull props then spread props
  else if isUndefined props then ∅
  else match props with
       | Plain d => {[ "props" := d ]}
       | Deferred _ => ∅
       end.

(** Step 1 of [callableBlueprint]: defaults resolved and merged under the
    caller's input, followed by the three-way branch on the merged value. *)
Definition applyDefaults (currentState : BlueprintState) (props : value) : M value :=
  let* resolvedDefaults :=
    resolveDefaults (defaultProviders currentState)
      (initialProps currentState props) ∅ in
  let currentProps : value :=
    Plain (DObj (spread2 resolvedDefaults (callerRecord props))) in
  if negb (jstype_eqb (typeof currentProps) TObject)
     && Nat.eqb (size (enforcedValues currentState)) 0
     && Nat.eqb (length (inputMappers currentState)) 0
     && negb (isDefined (implementation currentState))
  then ret currentProps
  else if negb (jstype_eqb (typeof currentProps) TObject)
          && negb (isNull currentProps) && negb (isUndefined currentProps)
  then ret currentProps
  else ret (Plain (DObj (spread2 resolvedDefaults
                           (spread (if truthy currentProps then currentProps
                                    else Plain (DObj ∅)))))).

(** Step 2: [{ ...currentProps, ...currentState.enforcedValues }] *)
Definition applyEnforced (currentState : BlueprintState) (currentProps : value) : value :=
  Plain (DObj (spread2 (spread currentProps) (enforcedValues currentState))).

(** Step 3: [for (const mapper of currentState.inputMappers)] *)
Fixpoint runInputMappers (mappers : list fn) (mappedProps : value) : M value :=
  match mappers with
  | [] => ret mappedProps
  | mapper :: rest =>
      let* next := mapper mappedProps in
      runInputMappers rest next
  end.

(** Step 3.5: props validation; a failure is logged and re-thrown. *)
Definition validatePropsStage (currentState : BlueprintState) (mappedProps : value)
    : M value :=
  match validateProps currentState, propsSchema currentState with
  | true, Some parse =>
      try_catch (parse mappedProps)
        (fun e =>
           let* _ := console_error "Blueprint props validation error." mappedProps in
           throw e)
  | _, _ => ret mappedProps
  end.

(** Step 4: [currentState.beforeHooks.forEach(hook => hook(validatedProps))] *)
Fixpoint runBeforeHooks (hooks : list fn) (validatedProps : value) : M unit :=
  match hooks with
  | [] => ret tt
  | hook :: rest =>
      let* _ := hook validatedProps in
      runBeforeHooks rest validatedProps
  end.

Definition notImplementedMessage (currentState : BlueprintState) : string :=
  let id := if truthyStr (key currentState)
            then "'" +:+ optStr (key currentState) +:+ "' " else "" in
  "Blueprint " +:+ id +:+ "has not been implemented.".

(** Step 7: [for (const mapper of currentState.outputMappers)] *)
Fixpoint runOutputMappers (mappers : list fn2) (currentResult validatedProps : value)
    : M value :=
  match mappers with
  | [] => ret currentResult
  | mapper :: rest =>
      let* next := mapper currentResult validatedProps in
      runOutputMappers rest next validatedProps
  end.

(** Step 7.5: result validation. *)
Definition validateResultStage (currentState : BlueprintState) (currentResult : value)
    : M value :=
  match validateResults currentState, resultSchema currentState with
  | true, Some parse =>
      try_catch (parse currentResult)
        (fun e =>
           let* _ := console_error "Blueprint result validation error." currentResult in
           throw e)
  | _, _ => ret currentResult
  end.

(** Step 8: [currentState.afterHooks.forEach(...)] *)
Fixpoint runAfterHooks (hooks : list fn2) (validatedResult validatedProps : value)
    : M unit :=
  match hooks with
  | [] => ret tt
  | hook :: rest =>
      let* _ := hook validatedResult validatedProps in
      runAfterHooks rest validatedResult validatedProps
  end.

Definition processResultAndFinalize (currentState : BlueprintState)
    (validatedProps resolvedResult : value) : M value :=
  let* currentResult :=
    runOutputMappers (outputMappers currentState) resolvedResult validatedProps in
  let* validatedResult := validateResultStage currentState currentResult in
  let* _ := runAfterHooks (afterHooks currentState) validatedResult validatedProps in
  if isVoid currentState then ret (Plain DUndefined) else ret validatedResult.

(** Steps 5 and 6 and the dispatch on a promise result. *)
Definition runCore (currentState : BlueprintState) (validatedProps : value) : M value :=
  match implementation currentState with
  | None => throw (DError (notImplementedMessage currentState))
  | Some impl =>
      let* result := impl validatedProps in
      let result :=
        if isAsync currentState && negb (isThenable result)
        then promiseResolve result else result in
      if isThenable result
      then then_ result (processResultAndFinalize currentState validatedProps)
      else processResultAndFinalize currentState validatedProps result
  end.

(** Steps 1 to 3: the props as they reach validation. *)
Definition mappingStages (currentState : BlueprintState) (props : value) : M value :=
  let* currentProps := applyDefaults currentState props in
  let currentProps := applyEnforced currentState currentProps in
  runInputMappers (inputMappers currentState) currentProps.

(** Steps 1 to 3.5: the props as they leave the input side. *)
Definition inputStages (currentState : BlueprintState) (props : value) : M value :=
  let* mappedProps := mappingStages currentState props in
  validatePropsStage currentState mappedProps.

(** [const callableBlueprint = (props) => ...] for a given [currentState]. *)
Definition callableBlueprint (currentState : BlueprintState) (props : value) : M value :=
  let* validatedProps := inputStages currentState props in
  let* _ := runBeforeHooks (beforeHooks currentState) validatedProps in
  runCore currentState validatedProps.

(* ===================================================================== *)
(** ** The engine: factory and chain methods *)
(* ===================================================================== *)

Record BlueprintOptions := {
  opt_key : option string;
  opt_description : option string;
  initialImplementation : option fn
}.

(** The argument of [blueprint(...)]: a bare implementation, an options
    record, or nothing. *)
Inductive blueprintArg :=
| ArgFunction (f : fn)
| ArgOptions (o : BlueprintOptions)
| ArgNone.

Definition parsedOptions (optionsOrImplementation : blueprintArg)
    : option BlueprintOptions :=
  match optionsOrImplementation with
  | ArgFunction f =>
      Some {| opt_key := None; opt_description := None;
              initialImplementation := Some f |}
  | ArgOptions o => Some o
  | ArgNone => None
  end.

Definition initialState (optionsOrImplementation : blueprintArg) : BlueprintState :=
  let o := parsedOptions optionsOrImplementation in
  {| key := o ≫= opt_key;
     description := o ≫= opt_description;
     implementation := o ≫= initialImplementation;
     inputMappers := [];
     outputMappers := [];
     beforeHooks := [];
     afterHooks := [];
     defaultProviders := [];
     enforcedValues := ∅;
     isAsync := false;
     isVoid := false;
     validateProps := false;
     propsSchema := None;
     validateResults := false;
     resultSchema := None |}.

(** The argument of [defaults]: a static partial record or a provider. *)
Inductive defaultsArg :=
| StaticDefaults (v : value)
| ProviderFn (f : fn).

(** The record each chain method hands to [makeCallable]:
    [{ ...currentState, <field>: <new value> }]. *)
Module Chain.

Definition implement (currentState : BlueprintState) (newImpl : fn) : BlueprintState :=
  {| key := key currentState;
     description := description currentState;
     implementation := Some newImpl;
     inputMappers := inputMappers currentState;
     outputMappers := outputMappers currentState;
     beforeHooks := beforeHooks currentState;
     afterHooks := afterHooks currentState;
     defaultProviders := defaultProviders currentState;
     enforcedValues := enforcedValues currentState;
     isAsync := isAsync currentState;
     isVoid := isVoid currentState;
     validateProps := validateProps currentState;
     propsSchema := propsSchema currentState;
     validateResults := validateResults currentState;
     resultSchema := resultSchema currentState |}.

Definition input (currentState : BlueprintState) (transform : fn) : BlueprintState :=
  {| key := key currentState;
     description := description currentState;
     implementation := implementation currentState;
     inputMappers := transform :: inputMappers currentState;
     outputMappers := outputMappers currentState;
     beforeHooks := beforeHooks currentState;
     afterHooks := afterHooks currentState;
     defaultProviders := defaultProviders currentState;
     enforcedValues := enforcedValues currentState;
     isAsync := isAsync currentState;
     isVoid := isVoid currentState;
     validateProps := validateProps currentState;
     propsSchema := propsSchema currentState;
     validateResults := validateResults currentState;
     resultSchema := resultSchema currentState |}.

Definition defaults (currentState : BlueprintState) (defaultsOrProvider : defaultsArg)
    : BlueprintState :=
  let provider : fn :=
    match defaultsOrProvider with
    | ProviderFn f => f
    | StaticDefaults v => fun _ => ret v
    end in
  {| key := key currentState;
     description := description currentState;
     implementation := implementation currentState;
     inputMappers := inputMappers currentState;
     outputMappers := outputMappers currentState;
     beforeHooks := beforeHooks currentState;
     afterHooks := afterHooks currentState;
     defaultProviders := defaultProviders currentState ++ [provider];
     enforcedValues := enforcedValues currentState;
     isAsync := isAsync currentState;
     isVoid := isVoid currentState;
     validateProps := validateProps currentState;
     propsSchema := propsSchema currentState;
     validateResults := validateResults currentState;
     resultSchema := resultSchema currentState |}.

Definition enforce (currentState : BlueprintState) (enforced : value) : BlueprintState :=
  {| key := key currentState;
     description := description currentState;
     implementation := implementation currentState;
     inputMappers := inputMappers currentState;
     outputMappers := outputMappers currentState;
     beforeHooks := beforeHooks currentState;
     afterHooks := afterHooks currentState;
     defaultProviders := defaultProviders currentState;
     enforcedValues := spread2 (enforcedValues currentState) (spread enforced);
     isAsync := isAsync currentState;
     isVoid := isVoid currentState;
     validateProps := validateProps currentState;
     propsSchema := propsSchema currentState;
     validateResults := validateResults currentState;
     resultSchema := resultSchema currentState |}.

Definition output (currentState : BlueprintState) (transform : fn2) : BlueprintState :=
  {| key := key currentState;
     description := description currentState;
     implementation := implementation currentState;
     inputMappers := inputMappers currentState;
     outputMappers := outputMappers currentState ++ [transform];
     beforeHooks := beforeHooks currentState;
     afterHooks := afterHooks currentState;
     defaultProviders := defaultProviders currentState;
     enforcedValues := enforcedValues currentState;
     isAsync := isAsync currentState;
     isVoid := isVoid currentState;
     validateProps := validateProps currentState;
     propsSchema := propsSchema currentState;
     validateResults := validateResults currentState;
     resultSchema := resultSchema currentState |}.

Definition before (currentState : BlueprintState) (effect : fn) : BlueprintState :=
  {| key := key currentState;
     description := description currentState;
     implementation := implementation currentState;
     inputMappers := inputMappers currentState;
     outputMappers := outputMappers currentState;
     beforeHooks := beforeHooks currentState ++ [effect];
     afterHooks := afterHooks currentState;
     defaultProviders := defaultProviders currentState;
     enforcedValues := enforcedValues currentState;
     isAsync := isAsync currentState;
     isVoid := isVoid currentState;
     validateProps := validateProps currentState;
     propsSchema := propsSchema currentState;
     validateResults := validateResults currentState;
     resultSchema := resultSchema currentState |}.

Definition after (currentState : BlueprintState) (effect : fn2) : BlueprintState :=
  {| key := key currentState;
     description := description currentState;
     implementation := implementation currentState;
     inputMappers := inputMappers currentState;
     outputMappers := outputMappers currentState;
     beforeHooks := beforeHooks currentState;
     afterHooks := afterHooks currentState ++ [effect];
     defaultProviders := defaultProviders currentState;
     enforcedValues := enforcedValues currentState;
     isAsync := isAsync currentState;
     isVoid := isVoid currentState;
     validateProps := validateProps currentState;
     propsSchema := propsSchema currentState;
     validateResults := validateResults currentState;
     resultSchema := resultSchema currentState |}.

Definition toAsync (currentState : BlueprintState) : BlueprintState :=
  {| key := key currentState;
     description := description currentState;
     implementation := implementation currentState;
     inputMappers := inputMappers currentState;
     outputMappers := outputMappers currentState;
     beforeHooks := beforeHooks currentState;
     afterHooks := afterHooks currentState;
     defaultProviders := defaultProviders currentState;
     enforcedValues := enforcedValues currentState;
     isAsync := true;
     isVoid := isVoid currentState;
     validateProps := validateProps currentState;
     propsSchema := propsSchema currentState;
     validateResults := validateResults currentState;
     resultSchema := resultSchema currentState |}.

Definition toVoid (currentState : BlueprintState) : BlueprintState :=
  {| key := key currentState;
     description := description currentState;
     implementation := implementation currentState;
     inputMappers := inputMappers currentState;
     outputMappers := outputMappers currentState;
     beforeHooks := beforeHooks currentState;
     afterHooks := afterHooks currentState;
     defaultProviders := defaultProviders currentState;
     enforcedValues := enforcedValues currentState;
     isAsync := isAsync currentState;
     isVoid := true;
     validateProps := validateProps currentState;
     propsSchema := propsSchema currentState;
     validateResults := validateResults currentState;
     resultSchema := resultSchema currentState |}.

Definition zProps (currentState : BlueprintState) (schema : fn) : BlueprintState :=
  {| key := key currentState;
     description := description currentState;
     implementation := implementation currentState;
     inputMappers := inputMappers currentState;
     outputMappers := outputMappers currentState;
     beforeHooks := beforeHooks currentState;
     afterHooks := afterHooks currentState;
     defaultProviders := defaultProviders currentState;
     enforcedValues := enforcedValues currentState;
     isAsync := isAsync currentState;
     isVoid := isVoid currentState;
     validateProps := true;
     propsSchema := Some schema;
     validateResults := validateResults currentState;
     resultSchema := resultSchema currentState |}.

Definition zResult (currentState : BlueprintState) (schema : fn) : BlueprintState :=
  {| key := key currentState;
     description := description currentState;
     implementation := implementation currentState;
     inputMappers := inputMappers currentState;
     outputMappers := outputMappers currentState;
     beforeHooks := beforeHooks currentState;
     afterHooks := afterHooks currentState;
     defaultProviders := defaultProviders currentState;
     enforcedValues := enforcedValues currentState;
     isAsync := isAsync currentState;
     isVoid := isVoid currentState;
     validateProps := validateProps currentState;
     propsSchema := propsSchema currentState;
     validateResults := true;
     resultSchema := Some schema |}.

(** [const newImplementation = (initialProps) => ...] of [pipe]: run the
    receiver, then [next] on its result, through [then] when it is a
    promise.  [next] is called the same way whether it is a blueprint or
    a plain function. *)
Definition newImplementation (currentState : BlueprintState)
    (nextBlueprintOrFn : fn) : fn :=
  fun initialProps =>
    let* currentBlueprintResult := callableBlueprint currentState initialProps in
    let executeNext : fn := fun resolvedCurrentResult =>
      nextBlueprintOrFn resolvedCurrentResult in
    if isThenable currentBlueprintResult
    then then_ currentBlueprintResult executeNext
    else executeNext currentBlueprintResult.

Definition pipe (currentState : BlueprintState) (nextBlueprintOrFn : fn)
    : BlueprintState :=
  let pipedIsAsync := isAsync currentState in
  let pipedIsVoid := isVoid currentState in
  {| key := if truthyStr (key currentState)
            then Some (optStr (key currentState) +:+ " |> piped") else None;
     description := if truthyStr (description currentState)
                    then Some (optStr (description currentState) +:+ ", then piped")
                    else None;
     implementation := Some (newImplementation currentState nextBlueprintOrFn);
     inputMappers := [];
     outputMappers := [];
     beforeHooks := [];
     afterHooks := [];
     defaultProviders := [];
     enforcedValues := ∅;
     isAsync := pipedIsAsync;
     isVoid := pipedIsVoid;
     validateProps := false;
     propsSchema := None;
     validateResults := false;
     resultSchema := None |}.

End Chain.

(* ===================================================================== *)
(** ** Callables as objects with identity *)
(* ===================================================================== *)

(** A chain method together with its argument. *)
Inductive method :=
| Implement (newImpl : fn)
| Input (transform : fn)
| Defaults (defaultsOrProvider : defaultsArg)
| Enforce (enforced : value)
| Output (transform : fn2)
| Before (effect : fn)
| After (effect : fn2)
| ToAsync
| ToVoid
| ZProps (schema : fn)
| ZResult (schema : fn)
| Pipe (nextBlueprintOrFn : fn).

(** The state each chain method derives from the state of its receiver,
    read by value. *)
Definition derivedState (m : method) (currentState : BlueprintState) : BlueprintState :=
  match m with
  | Implement newImpl => Chain.implement currentState newImpl
  | Input transform => Chain.input currentState transform
  | Defaults d => Chain.defaults currentState d
  | Enforce enforced => Chain.enforce currentState enforced
  | Output transform => Chain.output currentState transform
  | Before effect => Chain.before currentState effect
  | After effect => Chain.after currentState effect
  | ToAsync => Chain.toAsync currentState
  | ToVoid => Chain.toVoid currentState
  | ZProps schema => Chain.zProps currentState schema
  | ZResult schema => Chain.zResult currentState schema
  | Pipe next => Chain.pipe currentState next
  end.

(** Every call of [makeCallable] creates a new function object closed
    over the state object it is given, and a state object holds its
    arrays and its [enforcedValues] by reference: the literal
    [{ ...currentState, f: v }] copies the references of the fields it
    does not name.  The store keeps what has been created so far, the
    arrays and plain objects in [cells] and the callables, each with the
    state object it closed over, in [callables]; a reference is a
    position.  Nothing but the code of this section can reach a state
    object or one of its arrays. *)
Module Heap.

Inductive cell :=
| FnArray (l : list fn)
| Fn2Array (l : list fn2)
| Object (o : record).

Record StateObject := {
  key : option string;
  description : option string;
  implementation : option fn;
  inputMappers : nat;
  outputMappers : nat;
  beforeHooks : nat;
  afterHooks : nat;
  defaultProviders : nat;
  enforcedValues : nat;
  isAsync : bool;
  isVoid : bool;
  validateProps : bool;
  propsSchema : option fn;
  validateResults : bool;
  resultSchema : option fn
}.

Record Store := {
  cells : list cell;
  callables : list StateObject
}.

(** An array or object literal. *)
Definition alloc (c : cell) (s : Store) : nat * Store :=
  (length (cells s), {| cells := cells s ++ [c]; callables := callables s |}).

Definition makeCallable (currentState : StateObject) (s : Store) : nat * Store :=
  (length (callables s),
   {| cells := cells s; callables := callables s ++ [currentState] |}).

Definition fnArray (s : Store) (r : nat) : option (list fn) :=
  match cells s !! r with Some (FnArray l) => Some l | _ => None end.

Definition fn2Array (s : Store) (r : nat) : option (list fn2) :=
  match cells s !! r with Some (Fn2Array l) => Some l | _ => None end.

Definition object (s : Store) (r : nat) : option record :=
  match cells s !! r with Some (Object o) => Some o | _ => None end.

(** What an invocation reads through a state object. *)
Definition load (s : Store) (currentState : StateObject) : option BlueprintState :=
  im ← fnArray s (inputMappers currentState);
  om ← fn2Array s (outputMappers currentState);
  bh ← fnArray s (beforeHooks currentState);
  ah ← fn2Array s (afterHooks currentState);
  dp ← fnArray s (defaultProviders currentState);
  ev ← object s (enforcedValues currentState);
  Some (Build_BlueprintState
          (key currentState) (description currentState)
          (implementation currentState) im om bh ah dp ev
          (isAsync currentState) (isVoid currentState)
          (validateProps currentState) (propsSchema currentState)
          (validateResults currentState) (resultSchema currentState)).

Definition stateOf (s : Store) (self : nat) : option BlueprintState :=
  currentState ← callables s !! self; load s currentState.

(** [self(props)] *)
Definition invoke (s : Store) (self : nat) (props : value) : M value :=
  match stateOf s self with
  | Some currentState => callableBlueprint currentState props
  | None => throw (DError "not a function")
  end.

Definition implement (self : nat) (newImpl : fn) (s : Store)
    : option (nat * Store) :=
  currentState ← callables s !! self;
  Some (makeCallable
          {| key := key currentState;
             description := description currentState;
             implementation := Some newImpl;
             inputMappers := inputMappers currentState;
             outputMappers := outputMappers currentState;
             beforeHooks := beforeHooks currentState;
             afterHooks := afterHooks currentState;
             defaultProviders := defaultProviders currentState;
             enforcedValues := enforcedValues currentState;
             isAsync := isAsync currentState;
             isVoid := isVoid currentState;
             validateProps := validateProps currentState;
             propsSchema := propsSchema currentState;
             validateResults := validateResults currentState;
             resultSchema := resultSchema currentState |} s).

Definition input (self : nat) (transform : fn) (s : Store)
    : option (nat * Store) :=
  currentState ← callables s !! self;
  old ← fnArray s (inputMappers currentState);
  let '(r, s) := alloc (FnArray (transform :: old)) s in
  Some (makeCallable
          {| key := key currentState;
             description := description currentState;
             implementation := implementation currentState;
             inputMappers := r;
             outputMappers := outputMappers currentState;
             beforeHooks := beforeHooks currentState;
             afterHooks := afterHooks currentState;
             defaultProviders := defaultProviders currentState;
             enforcedValues := enforcedValues currentState;
             isAsync := isAsync currentState;
             isVoid := isVoid currentState;
             validateProps := validateProps currentState;
             propsSchema := propsSchema currentState;
             validateResults := validateResults currentState;
             resultSchema := resultSchema currentState |} s).

Definition defaults (self : nat) (defaultsOrProvider : defaultsArg) (s : Store)
    : option (nat * Store) :=
  currentState ← callables s !! self;
  let provider : fn :=
    match defaultsOrProvider with
    | ProviderFn f => f
    | StaticDefaults v => fun _ => ret v
    end in
  old ← fnArray s (defaultProviders currentState);
  let '(r, s) := alloc (FnArray (old ++ [provider])) s in
  Some (makeCallable
          {| key := key currentState;
             description := description currentState;
             implementation := implementation currentState;
             inputMappers := inputMappers currentState;
             outputMappers := outputMappers currentState;
             beforeHooks := beforeHooks currentState;
             afterHooks := afterHooks currentState;
             defaultProviders := r;
             enforcedValues := enforcedValues currentState;
             isAsync := isAsync currentState;
             isVoid := isVoid currentState;
             validateProps := validateProps currentState;
             propsSchema := propsSchema currentState;
             validateResults := validateResults currentState;
             resultSchema := resultSchema currentState |} s).

Definition enforce (self : nat) (enforced : value) (s : Store)
    : option (nat * Store) :=
  currentState ← callables s !! self;
  old ← object s (enforcedValues currentState);
  let '(r, s) := alloc (Object (spread2 old (spread enforced))) s in
  Some (makeCallable
          {| key := key currentState;
             description := description currentState;
             implementation := implementation currentState;
             inputMappers := inputMappers currentState;
             outputMappers := outputMappers currentState;
             beforeHooks := beforeHooks currentState;
             afterHooks := afterHooks currentState;
             defaultProviders := defaultProviders currentState;
             enforcedValues := r;
             isAsync := isAsync currentState;
             isVoid := isVoid currentState;
             validateProps := validateProps currentState;
             propsSchema := propsSchema currentState;
             validateResults := validateResults currentState;
             resultSchema := resultSchema currentState |} s).

Definition output (self : nat) (transform : fn2) (s : Store)
    : option (nat * Store) :=
  currentState ← callables s !! self;
  old ← fn2Array s (outputMappers currentState);
  let '(r, s) := alloc (Fn2Array (old ++ [transform])) s in
  Some (makeCallable
          {| key := key currentState;
             description := description currentState;
             implementation := implementation currentState;
             inputMappers := inputMappers currentState;
             outputMappers := r;
             beforeHooks := beforeHooks currentState;
             afterHooks := afterHooks currentState;
             defaultProviders := defaultProviders currentState;
             enforcedValues := enforcedValues currentState;
             isAsync := isAsync currentState;
             isVoid := isVoid currentState;
             validateProps := validateProps currentState;
             propsSchema := propsSchema currentState;
             validateResults := validateResults currentState;
             resultSchema := resultSchema currentState |} s).

Definition before (self : nat) (effect : fn) (s : Store)
    : option (nat * Store) :=
  currentState ← callables s !! self;
  old ← fnArray s (beforeHooks currentState);
  let '(r, s) := alloc (FnArray (old ++ [effect])) s in
  Some (makeCallable
          {| key := key currentState;
             description := description currentState;
             implementation := implementation currentState;
             inputMappers := inputMappers currentState;
             outputMappers := outputMappers currentState;
             beforeHooks := r;
             afterHooks := afterHooks currentState;
             defaultProviders := defaultProviders currentState;
             enforcedValues := enforcedValues currentState;
             isAsync := isAsync currentState;
             isVoid := isVoid currentState;
             validateProps := validateProps currentState;
             propsSchema := propsSchema currentState;
             validateResults := validateResults currentState;
             resultSchema := resultSchema currentState |} s).

Definition after (self : nat) (effect : fn2) (s : Store)
    : option (nat * Store) :=
  currentState ← callables s !! self;
  old ← fn2Array s (afterHooks currentState);
  let '(r, s) := alloc (Fn2Array (old ++ [effect])) s in
  Some (makeCallable
          {| key := key currentState;
             description := description currentState;
             implementation := implementation currentState;
             inputMappers := inputMappers currentState;
             outputMappers := outputMappers currentState;
             beforeHooks := beforeHooks currentState;
             afterHooks := r;
             defaultProviders := defaultProviders currentState;
             enforcedValues := enforcedValues currentState;
             isAsync := isAsync currentState;
             isVoid := isVoid currentState;
             validateProps := validateProps currentState;
             propsSchema := propsSchema currentState;
             validateResults := validateResults currentState;
             resultSchema := resultSchema currentState |} s).

Definition toAsync (self : nat) (s : Store)
    : option (nat * Store) :=
  currentState ← callables s !! self;
  Some (makeCallable
          {| key := key currentState;
             description := description currentState;
             implementation := implementation currentState;
             inputMappers := inputMappers currentState;
             outputMappers := outputMappers currentState;
             beforeHooks := beforeHooks currentState;
             afterHooks := afterHooks currentState;
             defaultProviders := defaultProviders currentState;
             enforcedValues := enforcedValues currentState;
             isAsync := true;
             isVoid := isVoid currentState;
             validateProps := validateProps currentState;
             propsSchema := propsSchema currentState;
             validateResults := validateResults currentState;
             resultSchema := resultSchema currentState |} s).

Definition toVoid (self : nat) (s : Store)
    : option (nat * Store) :=
  currentState ← callables s !! self;
  Some (makeCallable
          {| key := key currentState;
             description := description currentState;
             implementation := implementation currentState;
             inputMappers := inputMappers currentState;
             outputMappers := outputMappers currentState;
             beforeHooks := beforeHooks currentState;
             afterHooks := afterHooks currentState;
             defaultProviders := defaultProviders currentState;
             enforcedValues := enforcedValues currentState;
             isAsync := isAsync currentState;
             isVoid := true;
             validateProps := validateProps currentState;
             propsSchema := propsSchema currentState;
             validateResults := validateResults currentState;
             resultSchema := resultSchema currentState |} s).

Definition zProps (self : nat) (schema : fn) (s : Store)
    : option (nat * Store) :=
  currentState ← callables s !! self;
  Some (makeCallable
          {| key := key currentState;
             description := description currentState;
             implementation := implementation currentState;
             inputMappers := inputMappers currentState;
             outputMappers := outputMappers currentState;
             beforeHooks := beforeHooks currentState;
             afterHooks := afterHooks currentState;
             defaultProviders := defaultProviders currentState;
             enforcedValues := enforcedValues currentState;
             isAsync := isAsync currentState;
             isVoid := isVoid currentState;
             validateProps := true;
             propsSchema := Some schema;
             validateResults := validateResults currentState;
             resultSchema := resultSchema currentState |} s).

Definition zResult (self : nat) (schema : fn) (s : Store)
    : option (nat * Store) :=
  currentState ← callables s !! self;
  Some (makeCallable
          {| key := key currentState;
             description := description currentState;
             implementation := implementation currentState;
             inputMappers := inputMappers currentState;
             outputMappers := outputMappers currentState;
             beforeHooks := beforeHooks currentState;
             afterHooks := afterHooks currentState;
             defaultProviders := defaultProviders currentState;
             enforcedValues := enforcedValues currentState;
             isAsync := isAsync currentState;
             isVoid := isVoid currentState;
             validateProps := validateProps currentState;
             propsSchema := propsSchema currentState;
             validateResults := true;
             resultSchema := Some schema |} s).

(** [pipe]: the new implementation calls the receiver itself.  The
    receiver's state object is a constant of its closure, and a state
    object and its arrays are written by no code after the literal that
    creates them, so what that call reads is what is loaded here. *)
Definition pipe (self : nat) (nextBlueprintOrFn : fn) (s : Store)
    : option (nat * Store) :=
  currentState ← callables s !! self;
  receiver ← load s currentState;
  let newImplementation := Chain.newImplementation receiver nextBlueprintOrFn in
  let pipedIsAsync := isAsync currentState in
  let pipedIsVoid := isVoid currentState in
  let '(im, s) := alloc (FnArray []) s in
  let '(om, s) := alloc (Fn2Array []) s in
  let '(bh, s) := alloc (FnArray []) s in
  let '(ah, s) := alloc (Fn2Array []) s in
  let '(dp, s) := alloc (FnArray []) s in
  let '(ev, s) := alloc (Object ∅) s in
  Some (makeCallable
          {| key := if truthyStr (key currentState)
                    then Some (optStr (key currentState) +:+ " |> piped") else None;
             description :=
               if truthyStr (description currentState)
               then Some (optStr (description currentState) +:+ ", then piped")
               else None;
             implementation := Some newImplementation;
             inputMappers := im;
             outputMappers := om;
             beforeHooks := bh;
             afterHooks := ah;
             defaultProviders := dp;
             enforcedValues := ev;
             isAsync := pipedIsAsync;
             isVoid := pipedIsVoid;
             validateProps := false;
             propsSchema := None;
             validateResults := false;
             resultSchema := None |} s).

(** [blueprint(optionsOrImplementation)]: [makeCallable(initialState)] *)
Definition blueprint (optionsOrImplementation : blueprintArg) (s : Store)
    : nat * Store :=
  let o := parsedOptions optionsOrImplementation in
  let '(im, s) := alloc (FnArray []) s in
  let '(om, s) := alloc (Fn2Array []) s in
  let '(bh, s) := alloc (FnArray []) s in
  let '(ah, s) := alloc (Fn2Array []) s in
  let '(dp, s) := alloc (FnArray []) s in
  let '(ev, s) := alloc (Object ∅) s in
  makeCallable
    {| key := o ≫= opt_key;
       description := o ≫= opt_description;
       implementation := o ≫= initialImplementation;
       inputMappers := im;
       outputMappers := om;
       beforeHooks := bh;
       afterHooks := ah;
       defaultProviders := dp;
       enforcedValues := ev;
       isAsync := false;
       isVoid := false;
       validateProps := false;
       propsSchema := None;
       validateResults := false;
       resultSchema := None |} s.

(** [self.m(arg)] *)
Definition chainCall (m : method) (self : nat) (s : Store)
    : option (nat * Store) :=
  match m with
  | Implement newImpl => implement self newImpl s
  | Input transform => input self transform s
  | Defaults d => defaults self d s
  | Enforce enforced => enforce self enforced s
  | Output transform => output self transform s
  | Before effect => before self effect s
  | After effect => after self effect s
  | ToAsync => toAsync self s
  | ToVoid => toVoid self s
  | ZProps schema => zProps self schema s
  | ZResult schema => zResult self schema s
  | Pipe next => pipe self next s
  end.

(** The store before any blueprint is created. *)
Definition empty : Store := {| cells := []; callables := [] |}.

(** Everything [s] holds is in [s'], at the same place and with the same
    content. *)
Definition extends (s s' : Store) : Prop :=
  (forall r c, cells s !! r = Some c -> cells s' !! r = Some c)
  /\ (forall b o, callables s !! b = Some o -> callables s' !! b = Some o).

End Heap.

(* ===================================================================== *)
(** ** The addon-style blueprint and the interface sketch *)
(* ===================================================================== *)

(** Property values of the function objects of these two files: data,
    a function (named by a tag), an array, or an addon bundle
    [{ core }]. *)
Inductive field :=
| FData (d : data)
| FFun (tag : string)
| FArr (l : list field)
| FBundle (core : option (gmap string field)).

(** [...x] inside an object literal, for an optional table. *)
Definition spreadFields (o : option (gmap string field)) : gmap string field :=
  default ∅ o.

(** The blueprint of [blueprint({ key, description, addons, init })]: the
    function object [_blueprint] with its own properties, and the
    variable [implementation] its closures share. *)
Module Legacy.

Record Addon := { core : gmap string field }.

Definition bundle (a : Addon) : field := FBundle (Some (core a)).

Record BlueprintOptions := {
  key : option string;
  description : option string;
  addons : option (list Addon);
  init : option fn
}.

Record Blueprint := {
  implementation : fn;
  fields : gmap string field
}.

Definition optData (k : option string) : field :=
  match k with
  | Some s => FData (DStr s)
  | None => FData DUndefined
  end.

Definition blueprint (o : BlueprintOptions) (h : list Blueprint)
    : nat * list Blueprint :=
  let _blueprint :=
    {| implementation :=
         default (fun _ => throw (DError "Not Implemented")) (init o);
       fields :=
         list_to_map
           [("key", optData (key o));
            ("description", optData (description o));
            ("implement", FFun "implement");
            ("mod", FFun "mod");
            ("addons", FArr (bundle <$> default [] (addons o)));
            ("addon", FFun "addon");
            ("enforce", FFun "enforce");
            ("defaults", FFun "defaults");
            ("returning", FFun "returning");
            ("async", FFun "async");
            ("void", FFun "void")] |} in
  (length h, h ++ [_blueprint]).

(** [_blueprint(props)]: [(props) => implementation(props)] reads the
    shared variable at call time. *)
Definition call (h : list Blueprint) (self : nat) (props : value) : M value :=
  match h !! self with
  | Some b => implementation b props
  | None => throw (DError "not a function")
  end.

(** [implementation = newImplementation; return _blueprint] *)
Definition implement (self : nat) (newImplementation : fn) (h : list Blueprint)
    : option (nat * list Blueprint) :=
  match h !! self with
  | Some b =>
      Some (self, <[self := {| implementation := newImplementation;
                               fields := fields b |}]> h)
  | None => None
  end.

(** Keys that assignment cannot write on a function object: the
    non-writable [name] and [length], and [caller] and [arguments], whose
    inherited setters throw.  [__proto__] is listed with them: assigning
    it changes the prototype instead of adding a property, which is not
    modelled. *)
Definition unassignable : list string :=
  ["name"; "length"; "caller"; "arguments"; "__proto__"].

Definition readOnly (fs : gmap string field) : bool :=
  existsb (fun k => isDefined (fs !! k)) unassignable.

(** [Object.assign(_blueprint,
       { addons: [..._blueprint.addons, addon], ...addon.core })].
    [None] stands for a [TypeError] (the [addons] property no longer
    holds an array, or the bundle carries an unassignable key). *)
Definition addon (self : nat) (a : Addon) (h : list Blueprint)
    : option (nat * list Blueprint) :=
  match h !! self with
  | Some b =>
      match fields b !! "addons" with
      | Some (FArr l) =>
          let source : gmap string field :=
            core a ∪ {[ "addons" := FArr (l ++ [bundle a]) ]} in
          if readOnly source then None
          else Some (self, <[self := {| implementation := implementation b;
                                        fields := source ∪ fields b |}]> h)
      | _ => None
      end
  | None => None
  end.

End Legacy.

(** [core(handle)] of the interface sketch: [addon] spreads [this] into
    a fresh object literal. *)
Module Sketch.

Record Addon := { core : option (gmap string field) }.

Definition bundle (a : Addon) : field := FBundle (core a).

Record Obj := {
  isFunction : bool;
  fields : gmap string field
}.

Definition core_ (h : list Obj) : nat * list Obj :=
  let implementation :=
    {| isFunction := true;
       fields := list_to_map [("void", FFun "void");
                              ("addon", FFun "addon");
                              ("someMethod", FFun "someMethod")] |} in
  (length h, h ++ [implementation]).

(** [return { ...this, _addons: [_addons, addon], ...addon.core }], where
    [_addons] is the (never extended) empty array of the closure. *)
Definition addon (this : nat) (a : Addon) (h : list Obj) : option (nat * list Obj) :=
  match h !! this with
  | Some o =>
      let result :=
        {| isFunction := false;
           fields := spreadFields (core a)
                       ∪ ({[ "_addons" := FArr [FArr []; bundle a] ]} ∪ fields o) |} in
      Some (length h, h ++ [result])
  | None => None
  end.

End Sketch.

(* ===================================================================== *)
(** ** Sample programs *)
(* ===================================================================== *)

Definition emptyWorld : world := World ∅ [].

(** An object literal. *)
Definition obj (l : list (string * data)) : value := Plain (DObj (list_to_map l)).

(** [v.k] on an object. *)
Definition prop (k : string) (v : value) : data :=
  default DUndefined (spread v !! k).

(** [props => props] *)
Definition echo : fn := fun props => ret props.

(** [input => input.a + input.b]; reading a property of [undefined] or
    [null] is a [TypeError]. *)
Definition addAB : fn := fun input =>
  if isNull input || isUndefined input
  then throw (DError "TypeError: cannot read properties")
  else ret (Plain (jsPlus (prop "a" input) (prop "b" input))).

(** [counter[name]++] on a global counter. *)
Definition bump (name : string) : M unit := fun w =>
  let n := match vars w !! name with Some (DNum n) => n | _ => 0%Z end in
  (Ok tt, World (<[name := DNum (n + 1)]> (vars w)) (console w)).

(** Core logic with a visible side effect. *)
Definition countingCore : fn := fun props =>
  let* _ := bump "calls" in ret props.

(** A hook with a visible side effect. *)
Definition countingHook : fn := fun props =>
  let* _ := bump "hooks" in ret (Plain DUndefined).

(** The [parse] of a schema that requires [name] to be a non-empty
    string. *)
Definition requireName : fn := fun props =>
  match prop "name" props with
  | DStr s => if String.eqb s "" then throw (DError "name: too short") else ret props
  | _ => throw (DError "name: expected string")
  end.

(** The [parse] of an object schema declaring only a numeric [a]:
    undeclared keys are stripped from the accepted value. *)
Definition onlyA : fn := fun props =>
  match prop "a" props with
  | DNum a => ret (obj [("a", DNum a)])
  | _ => throw (DError "a: expected number")
  end.

(** The [parse] of a schema that normalises its input by adding a
    field. *)
Definition markChecked : fn := fun props =>
  ret (Plain (DObj (<["checked" := DBool true]> (spread props)))).

(** [(result, props) => props] *)
Definition secondArg : fn2 := fun _ props => ret props.

(** [p => typeof p === 'number' ? { b: 1 } : { b: 2 }] *)
Definition numberSensitive : fn := fun p =>
  match typeof p with
  | TNumber => ret (obj [("b", DNum 1)])
  | _ => ret (obj [("b", DNum 2)])
  end.

(** [() => 1] and [() => 42] *)
Definition constOne : fn := fun _ => ret (Plain (DNum 1)).
Definition constFortyTwo : fn := fun _ => ret (Plain (DNum 42)).

(* ===================================================================== *)
(** ** Derived notions used in the statements *)
(* ===================================================================== *)

(** The outputs of the providers, each applied to the same current
    props, in list order. *)
Fixpoint providerOutputs (providers : list fn) (currentProps : value)
    : M (list value) :=
  match providers with
  | [] => ret []
  | provider :: rest =>
      let* d := provider currentProps in
      let* ds := providerOutputs rest currentProps in
      ret (d :: ds)
  end.

(** The union of a sequence of partial records in which a later record
    overrides the keys of the earlier ones. *)
Definition unionOutputs (acc : record) (ds : list value) : record :=
  foldl (fun acc d => spread d ∪ acc) acc ds.

(** [currentState.validateProps && currentState.propsSchema] *)
Definition propsValidationActive (currentState : BlueprintState) : bool :=
  validateProps currentState && isDefined (propsSchema currentState).

(** [p => { seen = p }]: a hook that stores what it receives. *)
Definition rememberProps : fn := fun p w =>
  match p with
  | Plain d => (Ok (Plain DUndefined), World (<["seen" := d]> (vars w)) (console w))
  | Deferred _ => (Ok (Plain DUndefined), w)
  end.

(** [props => ({ ...props, b: 0 })] *)
Definition zeroB : fn := fun props =>
  ret (Plain (DObj (<["b" := DNum 0]> (spread props)))).

(** [b.input(t1).input(t2)...] and [b.output(t1).output(t2)...] *)
Definition inputs (currentState : BlueprintState) (ts : list fn) : BlueprintState :=
  foldl Chain.input currentState ts.

Definition outputs (currentState : BlueprintState) (ts : list fn2) : BlueprintState :=
  foldl Chain.output currentState ts.

(** [blueprint({})] of the addon-style factory. *)
Definition noOptions : Legacy.BlueprintOptions :=
  {| Legacy.key := None; Legacy.description := None;
     Legacy.addons := None; Legacy.init := None |}.

(** [requestAddon] of [addons/request.ts], contributing a [request]
    method, and a bundle replacing the base [implement]. *)
Definition requestAddon : Legacy.Addon :=
  {| Legacy.core := {[ "request" := FFun "requestAddon.request" ]} |}.

Definition overridingBundle : Legacy.Addon :=
  {| Legacy.core := {[ "implement" := FFun "overridingAddon.implement" ]} |}.

(** [soonAddon] of the interface sketch: [{ core: { some() {...} } }]. *)
Definition soonAddon : Sketch.Addon :=
  {| Sketch.core := Some {[ "some" := FFun "soonAddon.some" ]} |}.

(* ===================================================================== *)
(** ** The engine: [from] *)
(* ===================================================================== *)

(** What a member access [props[key]] can yield: a datum, or a member
    inherited from [Object.prototype] (a function, or the prototype
    itself for [__proto__]), or a member of a value whose prototype
    chain is not modelled (arrays, strings, numbers, booleans, errors,
    promises). *)
Inductive jsarg :=
| AData (d : data)
| AInherited (name : string)
| AOpaque.

(** The names every plain object inherits. *)
Definition objectPrototypeKeys : list string :=
  ["constructor"; "__defineGetter__"; "__defineSetter__"; "hasOwnProperty";
   "__lookupGetter__"; "__lookupSetter__"; "isPrototypeOf";
   "propertyIsEnumerable"; "toString"; "valueOf"; "__proto__";
   "toLocaleString"].

(** [o[key]] on a plain object with own properties [o]. *)
Definition ownOrInherited (o : record) (key : string) : jsarg :=
  match o !! key with
  | Some d => AData d
  | None =>
      if existsb (String.eqb key) objectPrototypeKeys
      then AInherited key else AData DUndefined
  end.

(** [(props as any)[key]]: a [TypeError] on [undefined] and [null]. *)
Definition member (props : value) (key : string) : M jsarg :=
  match props with
  | Plain (DObj o) => ret (ownOrInherited o key)
  | Plain DUndefined => throw (DError "TypeError: cannot read properties of undefined")
  | Plain DNull => throw (DError "TypeError: cannot read properties of null")
  | _ => ret AOpaque
  end.

(** [keys.map(key => (props as any)[key])] *)
Fixpoint members (props : value) (keys : list string) : M (list jsarg) :=
  match keys with
  | [] => ret []
  | key :: rest =>
      let* a := member props key in
      let* args := members props rest in
      ret (a :: args)
  end.

(** [from(fn, keys)]:
    [blueprint().implement(props => fn(...keys.map(key => props[key])))].
    A function of positional parameters takes the list of its
    arguments. *)
Definition from (fn_ : list jsarg -> M value) (keys : list string) : BlueprintState :=
  Chain.implement (initialState ArgNone)
    (fun props =>
       let* args := members props keys in
       fn_ args).

(* ===================================================================== *)
(** ** The engine: stages grouped, hooks added in sequence *)
(* ===================================================================== *)

(** Steps 1 to 4: everything that runs before the core logic, yielding
    the validated props. *)
Definition beforeCore (currentState : BlueprintState) (props : value) : M value :=
  let* validatedProps := inputStages currentState props in
  let* _ := runBeforeHooks (beforeHooks currentState) validatedProps in
  ret validatedProps.

(** [b.before(h1).before(h2)...] and [b.after(h1).after(h2)...] *)
Definition befores (currentState : BlueprintState) (hs : list fn) : BlueprintState :=
  foldl Chain.before currentState hs.

Definition afters (currentState : BlueprintState) (hs : list fn2) : BlueprintState :=
  foldl Chain.after currentState hs.

(** [blueprint({ key })] *)
Definition keyed (k : string) : BlueprintState :=
  initialState (ArgOptions {| opt_key := Some k; opt_description := None;
                              initialImplementation := None |}).

(** A hook that always fails. *)
Definition failingHook : fn := fun _ => throw (DError "hook failed").

(** The [parse] of a result schema that accepts nothing. *)
Definition rejectAll : fn := fun _ => throw (DError "invalid result").

(** Core logic that fails. *)
Definition failingCore : fn := fun _ => throw (DError "core failed").

(** Core logic that returns a rejected promise. *)
Definition rejectingCore : fn := fun _ =>
  ret (Deferred (Rejected (DError "core failed"))).

(** An after hook with a visible side effect. *)
Definition countingAfter : fn2 := fun _ _ =>
  let* _ := bump "after" in ret (Plain DUndefined).

(* ===================================================================== *)
(** ** The request-handler adapter [route] *)
(* ===================================================================== *)

Module Next.

(** What [route] reads from the inbound request: [request.method], the
    call [request.json()] and the entries of
    [request.nextUrl.searchParams]. *)
Record NextRequest := {
  method : string;
  json : M value;
  searchParams : list (string * string)
}.

(** [list.includes(s)] *)
Definition includes (l : list string) (s : string) : bool :=
  existsb (String.eqb s) l.

(** [Object.fromEntries(entries)]: a later entry replaces an earlier one
    with the same name. *)
Definition fromEntries (entries : list (string * string)) : record :=
  foldl (fun acc e => <[e.1 := DStr e.2]> acc) ∅ entries.

(** [route(blueprint)(request, { params: promise })], an [async]
    function: each [await] is a [then] on the awaited value, an error
    thrown on the way rejects the returned promise.  [NextResponse.json]
    belongs to the framework and is a parameter. *)
Definition route (NextResponse_json : fn) (blueprint : fn)
    (request : NextRequest) (promise : value) : M value :=
  then_ promise (fun params =>
    let fromParams : record :=
      if jstype_eqb (typeof params) TObject then spread params else ∅ in
    let withBody (bodyPart : record) : M value :=
      let queryPart : record :=
        if includes ["GET"; "DELETE"] (method request)
        then fromEntries (searchParams request) else ∅ in
      let props := Plain (DObj (spread2 (spread2 fromParams bodyPart) queryPart)) in
      let* pending := blueprint props in
      then_ pending (fun result => NextResponse_json result) in
    if includes ["POST"; "PUT"; "PATCH"] (method request)
    then
      let* pendingBody := json request in
      then_ pendingBody (fun body =>
        match body with
        | Plain b => withBody {[ "body" := b ]}
        | Deferred _ => withBody ∅
        end)
    else withBody ∅).

End Next.

(** What an [async] function whose remaining body is [body] returns: a
    promise adopting the body's value, rejected by an error the body
    throws. *)
Definition asyncResult (body : M value) : M value := fun w =>
  match body w with
  | (Ok r, w') => (Ok (promiseResolve r), w')
  | (Throw e, w') => (Ok (Deferred (Rejected e)), w')
  end.

(** [typeof params === 'object' ? params : {}], spread. *)
Definition paramsRecord (params : value) : record :=
  if jstype_eqb (typeof params) TObject then spread params else ∅.

(** [NextResponse.json(result)] pictured as the record [{ json: result }]. *)
Definition jsonResponse : fn := fun result =>
  match result with
  | Plain d => ret (Plain (DObj {[ "json" := d ]}))
  | Deferred _ => throw (DError "not serialisable")
  end.

(** A request whose body cannot be read. *)
Definition unreadable : M value := ret (Deferred (Rejected (DError "invalid JSON"))).

(* ===================================================================== *)
(** ** The addon-style blueprint with [mod] *)
(* ===================================================================== *)

(** The blueprints [mod] derives call the blueprint they were derived
    from when they are invoked, so they run whatever implementation that
    one has at that moment.  To express this, the implementation of a
    blueprint is either a function handed over by the user, or the
    closure [(props) => mod(_blueprint)(props)] that [mod] builds, kept as
    the [mod] callback and the position of [_blueprint].  A [mod]
    callback uses the blueprint it receives as a function only. *)
Module LegacyMod.

Inductive code :=
| Native (f : fn)
| ModOf (modFn : fn -> fn) (original : nat).

Record Blueprint := {
  implementation : code;
  fields : gmap string field
}.

Definition notAFunction : fn := fun _ => throw (DError "not a function").

(** What a blueprint computes, given what the blueprints created before
    it compute. *)
Definition behaviour (earlier : list fn) (b : Blueprint) : fn :=
  match implementation b with
  | Native f => f
  | ModOf modFn original =>
      fun props => modFn (default notAFunction (earlier !! original)) props
  end.

Definition behaviours (h : list Blueprint) : list fn :=
  foldl (fun earlier b => earlier ++ [behaviour earlier b]) [] h.

(** [_blueprint(props)] *)
Definition call (h : list Blueprint) (self : nat) (props : value) : M value :=
  default notAFunction (behaviours h !! self) props.

(** The options as the factory reads them: property values, since [mod]
    passes the receiver's own properties on. *)
Record BlueprintOptions := {
  key : field;
  description : field;
  addons : field;
  init : option code
}.

(** [addons = []] and [addons ?? []] *)
Definition orEmptyArray (f : field) : field :=
  match f with
  | FData DUndefined | FData DNull => FArr []
  | _ => f
  end.

Definition blueprint (o : BlueprintOptions) (h : list Blueprint)
    : nat * list Blueprint :=
  let _blueprint :=
    {| implementation :=
         default (Native (fun _ => throw (DError "Not Implemented"))) (init o);
       fields :=
         list_to_map
           [("key", key o);
            ("description", description o);
            ("implement", FFun "implement");
            ("mod", FFun "mod");
            ("addons", orEmptyArray (addons o));
            ("addon", FFun "addon");
            ("enforce", FFun "enforce");
            ("defaults", FFun "defaults");
            ("returning", FFun "returning");
            ("async", FFun "async");
            ("void", FFun "void")] |} in
  (length h, h ++ [_blueprint]).

(** [_blueprint.name]: the property if it is there, else [undefined]. *)
Definition property (b : Blueprint) (name : string) : field :=
  default (FData DUndefined) (fields b !! name).

Definition implement (self : nat) (newImplementation : fn) (h : list Blueprint)
    : option (nat * list Blueprint) :=
  match h !! self with
  | Some b =>
      Some (self, <[self := {| implementation := Native newImplementation;
                               fields := fields b |}]> h)
  | None => None
  end.

Definition addon (self : nat) (a : Legacy.Addon) (h : list Blueprint)
    : option (nat * list Blueprint) :=
  match h !! self with
  | Some b =>
      match fields b !! "addons" with
      | Some (FArr l) =>
          let source : gmap string field :=
            Legacy.core a ∪ {[ "addons" := FArr (l ++ [Legacy.bundle a]) ]} in
          if Legacy.readOnly source then None
          else Some (self, <[self := {| implementation := implementation b;
                                        fields := source ∪ fields b |}]> h)
      | _ => None
      end
  | None => None
  end.

(** [_blueprint.mod(mod)]: a new blueprint made by the factory from the
    receiver's [addons], [key] and [description] properties, whose
    [init] calls [mod(_blueprint)] at every invocation. *)
Definition mod_ (self : nat) (modFn : fn -> fn) (h : list Blueprint)
    : option (nat * list Blueprint) :=
  match h !! self with
  | Some b =>
      Some (blueprint {| addons := property b "addons";
                         key := property b "key";
                         description := property b "description";
                         init := Some (ModOf modFn self) |} h)
  | None => None
  end.

(** The methods below call [_blueprint.mod]: they are modelled for a
    receiver whose [mod] property is still the factory's. *)
Definition viaMod (self : nat) (modFn : fn -> fn) (h : list Blueprint)
    : option (nat * list Blueprint) :=
  match h !! self with
  | Some b =>
      match fields b !! "mod" with
      | Some (FFun "mod") => mod_ self modFn h
      | _ => None
      end
  | None => None
  end.

(** The argument of [enforce] and [defaults]: values, or a function of
    the props. *)
Definition valuesFor (arg : defaultsArg) (props : value) : M value :=
  match arg with
  | ProviderFn f => f props
  | StaticDefaults v => ret v
  end.

(** [props => blueprint({ ...props,
       ...(typeof enforce === 'function' ? enforce(props) : enforce) })] *)
Definition enforce (self : nat) (arg : defaultsArg) (h : list Blueprint)
    : option (nat * list Blueprint) :=
  viaMod self
    (fun blueprint props =>
       let* enforced := valuesFor arg props in
       blueprint (Plain (DObj (spread2 (spread props) (spread enforced))))) h.

(** [props => blueprint({
       ...(typeof defaults === 'function' ? defaults(props) : defaults),
       ...props })] *)
Definition defaults (self : nat) (arg : defaultsArg) (h : list Blueprint)
    : option (nat * list Blueprint) :=
  viaMod self
    (fun blueprint props =>
       let* resolved := valuesFor arg props in
       blueprint (Plain (DObj (spread2 (spread resolved) (spread props))))) h.

(** [props => new Promise((resolve, reject) => {
       try { resolve(blueprint(props)) } catch (error) { reject(error) } })] *)
Definition async (self : nat) (h : list Blueprint) : option (nat * list Blueprint) :=
  viaMod self
    (fun blueprint props w =>
       match blueprint props w with
       | (Ok result, w') => (Ok (promiseResolve result), w')
       | (Throw error, w') => (Ok (Deferred (Rejected error)), w')
       end) h.

(** [props => { blueprint(props) }] *)
Definition void (self : nat) (h : list Blueprint) : option (nat * list Blueprint) :=
  viaMod self
    (fun blueprint props =>
       let* _ := blueprint props in
       ret (Plain DUndefined)) h.

(** The blueprints of the simpler picture, where every implementation
    is a user's function. *)
Definition embed (b : Legacy.Blueprint) : Blueprint :=
  {| implementation := Native (Legacy.implementation b);
     fields := Legacy.fields b |}.

End LegacyMod.

(** The own properties the factory of the addon-style blueprint sets. *)
Definition baseProperties : list string :=
  ["key"; "description"; "implement"; "mod"; "addons"; "addon"; "enforce";
   "defaults"; "returning"; "async"; "void"].

(** [blueprint({})] for the factory with [mod]. *)
Definition noOptionsMod : LegacyMod.BlueprintOptions :=
  {| LegacyMod.key := FData DUndefined; LegacyMod.description := FData DUndefined;
     LegacyMod.addons := FData DUndefined; LegacyMod.init := None |}.

(** A blueprint without core logic in which every stage before the core
    leaves a trace: [p => { counter.defaults++; return { d: 1 } }] as
    provider, [{ e: 2 }] enforced, [p => { counter.mapper++; return
    { ...p, m: 3 } }] as input transform, a schema whose [parse] counts
    its calls and accepts, and two before hooks, one storing what it
    receives and one counting. *)
Definition countingProvider : fn := fun _ =>
  let* _ := bump "defaults" in ret (obj [("d", DNum 1)]).

Definition countingMapper : fn := fun p =>
  let* _ := bump "mapper" in ret (Plain (DObj (<["m" := DNum 3]> (spread p)))).

Definition countingParse : fn := fun p =>
  let* _ := bump "validator" in ret p.

Definition staged (mapper : fn) : BlueprintState :=
  Chain.before
    (Chain.before
       (Chain.zProps
          (Chain.input
             (Chain.enforce
                (Chain.defaults (initialState ArgNone) (ProviderFn countingProvider))
                (obj [("e", DNum 2)]))
             mapper)
          countingParse)
       rememberProps)
    countingHook.

(** [p => { throw new Error('mapper failed') }] *)
Definition failingMapper : fn := fun _ => throw (DError "mapper failed").

(** [p => ({ b: p.a })] and [p => ({ c: p.b })]: providers whose output
    depends on what they are given.  Reading a property of [null] or
    [undefined] throws a [TypeError]. *)
Definition keyFrom (target source : string) : fn := fun p =>
  if isNull p || isUndefined p
  then throw (DError "TypeError: cannot read properties")
  else ret (obj [(target, prop source p)]).

Definition bFromA : fn := keyFrom "b" "a".
Definition cFromB : fn := keyFrom "c" "b".

(** A props value carries the enforced values: every enforced key is
    there with its enforced value.  A stage function keeps them when its
    result carries them whenever its argument does. *)
Definition carries (enforced : record) (p : value) : Prop :=
  forall k v, enforced !! k = Some v -> spread p !! k = Some v.

Definition keepsEnforced (enforced : record) (f : fn) : Prop :=
  forall p w q w', carries enforced p -> f p w = (Ok q, w') -> carries enforced q.

(** One receiver and a derivation by every chain method, each called on
    the receiver itself. *)
Definition everyMethod : list method :=
  [Implement constFortyTwo; Input zeroB; Defaults (ProviderFn bFromA);
   Enforce (obj [("b", DNum 100)]); Output secondArg; Before countingHook;
   After countingAfter; ToAsync; ToVoid; ZProps onlyA; ZResult rejectAll;
   Pipe constFortyTwo].

Fixpoint deriveAll (ms : list method) (self : nat) (s : Heap.Store) : Heap.Store :=
  match ms with
  | [] => s
  | m :: rest =>
      match Heap.chainCall m self s with
      | Some (_, s') => deriveAll rest self s'
      | None => s
      end
  end.

(* ===================================================================== *)
(** ** Properties of the monad and of promises *)
(* ===================================================================== *)

Lemma bind_ret_l {A B} (a : A) (k : A -> M B) w : bind (ret a) k w = k a w.
Proof. reflexivity. Qed.

Lemma bind_ret_r {A} (c : M A) w : bind c ret w = c w.
Proof. unfold bind, ret. destruct (c w) as [[a|e] w']; reflexivity. Qed.

Lemma bind_assoc {A B C} (c : M A) (k : A -> M B) (k' : B -> M C) w :
  bind (bind c k) k' w = bind c (fun a => bind (k a) k') w.
Proof. unfold bind. destruct (c w) as [[a|e] w']; reflexivity. Qed.

Lemma bind_ext {A B} (c : M A) (k k' : A -> M B) w :
  (forall a w', k a w' = k' a w') -> bind c k w = bind c k' w.
Proof. intros H. unfold bind. destruct (c w) as [[a|e] w']; auto. Qed.

Lemma bind_cong {A B} (c c' : M A) (k k' : A -> M B) w :
  c w = c' w -> (forall a w', k a w' = k' a w') -> bind c k w = bind c' k' w.
Proof. intros Hc H. unfold bind. rewrite Hc. destruct (c' w) as [[a|e] w']; auto. Qed.

Lemma promiseResolve_thenable v : isThenable (promiseResolve v) = true.
Proof. destruct v; reflexivity. Qed.

Lemma promiseResolve_idem v : isThenable v = true -> promiseResolve v = v.
Proof. destruct v; simpl; congruence. Qed.

(** [then] always returns, and what it returns is a promise. *)
Lemma then_returns_promise p k w :
  exists q w', then_ p k w = (Ok (Deferred q), w').
Proof.
  unfold then_. destruct (promiseResolve p) as [d|[|d|e]] eqn:E.
  - destruct p; discriminate.
  - eauto.
  - destruct (k (Plain d) w) as [[r|e] w'].
    + destruct r as [d'|q]; simpl; eauto.
    + eauto.
  - eauto.
Qed.

(** Chaining the identity continuation gives back the same promise. *)
Lemma then_ret p w : isThenable p = true -> then_ p ret w = (Ok p, w).
Proof.
  destruct p as [d|[|d|e]]; simpl; try discriminate; intros _; reflexivity.
Qed.

(* ===================================================================== *)
(** ** Step 1: defaults *)
(* ===================================================================== *)

Lemma unionOutputs_snoc acc ds d :
  unionOutputs acc (ds ++ [d]) = spread d ∪ unionOutputs acc ds.
Proof. unfold unionOutputs. rewrite foldl_app. reflexivity. Qed.

Lemma resolveDefaults_outputs providers currentProps acc w :
  resolveDefaults providers currentProps acc w =
  bind (providerOutputs providers currentProps)
       (fun ds => ret (unionOutputs acc ds)) w.
Proof.
  revert acc w. induction providers as [|provider rest IH]; intros acc w.
  - reflexivity.
  - simpl. unfold bind.
    destruct (provider currentProps w) as [[d|e] w1]; [|reflexivity].
    rewrite IH. unfold bind, ret.
    destruct (providerOutputs rest currentProps w1) as [[ds|e] w2]; reflexivity.
Qed.

(** The three-way branch after the merge never takes its first two arms:
    the merged value is always an object, and merging the defaults under
    it once more changes nothing. *)
Lemma applyDefaults_merge currentState props w :
  applyDefaults currentState props w =
  bind (resolveDefaults (defaultProviders currentState)
          (initialProps currentState props) ∅)
       (fun resolvedDefaults =>
          ret (Plain (DObj (callerRecord props ∪ resolvedDefaults)))) w.
Proof.
  unfold applyDefaults. apply bind_ext. intros rd w'. simpl.
  unfold spread2. rewrite <- (assoc_L (∪)), (idemp_L (∪)). reflexivity.
Qed.

Lemma applyDefaults_outputs currentState props w :
  applyDefaults currentState props w =
  bind (providerOutputs (defaultProviders currentState)
          (initialProps currentState props))
       (fun ds => ret (Plain (DObj (callerRecord props ∪ unionOutputs ∅ ds)))) w.
Proof.
  rewrite applyDefaults_merge.
  unfold bind at 1. rewrite resolveDefaults_outputs. unfold bind, ret.
  destruct (providerOutputs _ _ w) as [[ds|e] w']; reflexivity.
Qed.

(** C5: default resolution is the union of the providers' outputs, every
    provider being applied to the current props, which at this first
    stage are the copy of the caller's input (an object is copied, any
    other value is handed over as it is, and an undefined input with at
    least one provider is replaced by the empty record); later providers
    override earlier ones; caller-supplied keys win over the resolved
    defaults; a provider that computes its output from its argument
    computes it from the caller's keys; and the blueprint
    [input => input.a + input.b] with [defaults({b: 2})] returns 7 on
    [{a: 5}] and 15 on [{a: 5, b: 10}]. *)
Theorem default_resolution :
  (forall currentState props w,
     applyDefaults currentState props w =
     bind (providerOutputs (defaultProviders currentState)
             (initialProps currentState props))
          (fun ds => ret (Plain (DObj (callerRecord props ∪ unionOutputs ∅ ds)))) w)
  /\ (forall currentState (r : record) w,
        applyDefaults currentState (Plain (DObj r)) w =
        bind (providerOutputs (defaultProviders currentState) (Plain (DObj r)))
             (fun ds => ret (Plain (DObj (r ∪ unionOutputs ∅ ds)))) w)
  /\ (forall currentState provider rest w,
        defaultProviders currentState = provider :: rest ->
        applyDefaults currentState (Plain DUndefined) w =
        bind (providerOutputs (provider :: rest) (Plain (DObj ∅)))
             (fun ds => ret (Plain (DObj (unionOutputs ∅ ds)))) w)
  /\ (forall ds d k,
        unionOutputs ∅ (ds ++ [d]) !! k =
        match spread d !! k with
        | Some v => Some v
        | None => unionOutputs ∅ ds !! k
        end)
  /\ (forall currentState,
        (forall r : record,
           initialProps currentState (Plain (DObj r)) = Plain (DObj r))
        /\ (forall d, isObjectNotNull (Plain d) = false -> d <> DUndefined ->
              initialProps currentState (Plain d) = Plain d)
        /\ initialProps currentState (Plain DUndefined) =
           match defaultProviders currentState with
           | [] => Plain DUndefined
           | _ :: _ => Plain (DObj ∅)
           end)
  /\ (forall props (resolved : record) k,
        (callerRecord props ∪ resolved) !! k =
        match callerRecord props !! k with
        | Some v => Some v
        | None => resolved !! k
        end)
  /\ (let bp := Chain.defaults
                  (Chain.defaults (initialState (ArgFunction echo))
                     (ProviderFn bFromA))
                  (ProviderFn cFromB) in
      callableBlueprint bp (obj [("a", DNum 5)]) emptyWorld
        = (Ok (obj [("a", DNum 5); ("b", DNum 5); ("c", DUndefined)]), emptyWorld)
      /\ callableBlueprint bp (obj [("a", DNum 5); ("b", DNum 10)]) emptyWorld
        = (Ok (obj [("a", DNum 5); ("b", DNum 10); ("c", DNum 10)]), emptyWorld)
      /\ callableBlueprint bp (Plain DUndefined) emptyWorld
        = (Ok (obj [("b", DUndefined); ("c", DUndefined)]), emptyWorld))
  /\ (let bp := Chain.defaults (initialState (ArgFunction addAB))
                  (StaticDefaults (obj [("b", DNum 2)])) in
      callableBlueprint bp (obj [("a", DNum 5)]) emptyWorld
        = (Ok (Plain (DNum 7)), emptyWorld)
      /\ callableBlueprint bp (obj [("a", DNum 5); ("b", DNum 10)]) emptyWorld
        = (Ok (Plain (DNum 15)), emptyWorld)).
Proof.
  split; [|split; [|split; [|split; [|split; [|split; [|split]]]]]].
  - apply applyDefaults_outputs.
  - intros st r w. rewrite applyDefaults_outputs. reflexivity.
  - intros st provider rest w Hp. rewrite applyDefaults_outputs.
    unfold initialProps. rewrite Hp. simpl. apply bind_ext. intros ds w'.
    unfold callerRecord. simpl. rewrite (left_id_L ∅ (∪)). reflexivity.
  - intros ds d k. rewrite unionOutputs_snoc, lookup_union.
    destruct (spread d !! k), (unionOutputs ∅ ds !! k); reflexivity.
  - intros st. split; [|split].
    + intros r. reflexivity.
    + intros d Hobj Hund. unfold initialProps. rewrite Hobj.
      destruct d; try reflexivity; congruence.
    + unfold initialProps. simpl. destruct (defaultProviders st); reflexivity.
  - intros props resolved k. rewrite lookup_union.
    destruct (callerRecord props !! k), (resolved !! k); reflexivity.
  - repeat split; vm_compute; reflexivity.
  - split; vm_compute; reflexivity.
Qed.

(* ===================================================================== *)
(** ** Steps 1 and 2: primitive inputs and enforced values *)
(* ===================================================================== *)

Lemma validatePropsStage_inactive currentState mappedProps w :
  propsValidationActive currentState = false ->
  validatePropsStage currentState mappedProps w = (Ok mappedProps, w).
Proof.
  unfold propsValidationActive, validatePropsStage.
  destruct (validateProps currentState), (propsSchema currentState);
    simpl; intros H; try discriminate; reflexivity.
Qed.

Lemma callerRecord_primitive d :
  isObjectNotNull (Plain d) = false -> d <> DUndefined ->
  callerRecord (Plain d) = {[ "props" := d ]}.
Proof.
  intros Hobj Hund. unfold callerRecord. rewrite Hobj.
  destruct d; try reflexivity; congruence.
Qed.

Lemma initialProps_primitive currentState d :
  isObjectNotNull (Plain d) = false -> d <> DUndefined ->
  initialProps currentState (Plain d) = Plain d.
Proof.
  intros Hobj Hund. unfold initialProps. rewrite Hobj.
  destruct d; try reflexivity; congruence.
Qed.

(** What step 1 does with a primitive input [d] other than [undefined]:
    it is always wrapped as [{ props: d }] and merged over the resolved
    defaults, whatever the configuration; with no providers, no enforced
    values, no input mappers and no active validator the later stages
    receive the record [{ props: d }], not [d]. *)
Theorem primitive_input_wrapped currentState d w :
  isObjectNotNull (Plain d) = false ->
  d <> DUndefined ->
  applyDefaults currentState (Plain d) w =
    bind (resolveDefaults (defaultProviders currentState) (Plain d) ∅)
         (fun resolvedDefaults =>
            ret (Plain (DObj (<["props" := d]> resolvedDefaults)))) w
  /\ (defaultProviders currentState = [] ->
      enforcedValues currentState = ∅ ->
      inputMappers currentState = [] ->
      propsValidationActive currentState = false ->
      inputStages currentState (Plain d) w
        = (Ok (Plain (DObj {[ "props" := d ]})), w)).
Proof.
  intros Hobj Hund. split.
  - rewrite applyDefaults_merge, initialProps_primitive by assumption.
    apply bind_ext. intros rd w'.
    rewrite callerRecord_primitive by assumption.
    rewrite insert_union_singleton_l. reflexivity.
  - intros Hp He Hm Hv. unfold inputStages, mappingStages.
    unfold bind at 1 2. rewrite applyDefaults_merge, Hp. simpl.
    unfold applyEnforced, spread2. rewrite Hm, He. simpl.
    rewrite callerRecord_primitive by assumption.
    rewrite (right_id_L ∅ (∪)), (left_id_L ∅ (∪)).
    apply validatePropsStage_inactive, Hv.
Qed.

Lemma primitive_input_wrapped_witness :
  inputStages (initialState (ArgFunction echo)) (Plain (DNum 5)) emptyWorld
  = (Ok (Plain (DObj {[ "props" := DNum 5 ]})), emptyWorld).
Proof.
  apply (primitive_input_wrapped (initialState (ArgFunction echo)) (DNum 5) emptyWorld);
    [reflexivity | discriminate | reflexivity | reflexivity | reflexivity | reflexivity].
Defined.

(** C4: the code at the input [5].  With no providers, no enforced
    values and no input mappers the primitive [5] reaches the core logic
    as [{ props: 5 }], not as [5]; and with no implementation either, a
    before hook still receives [{ props: 5 }].  The two arms of the
    three-way branch of step 1 that are written for a primitive
    [currentProps] are never taken, because the merge just before them
    has already wrapped the input. *)
Lemma primitive_input_not_passed_through :
  let bp := initialState (ArgFunction echo) in
  let hooked := Chain.before (initialState ArgNone) rememberProps in
  defaultProviders bp = [] /\ enforcedValues bp = ∅ /\ inputMappers bp = []
  /\ callableBlueprint bp (Plain (DNum 5)) emptyWorld
     = (Ok (Plain (DObj {[ "props" := DNum 5 ]})), emptyWorld)
  /\ Plain (DObj {[ "props" := DNum 5 ]}) <> Plain (DNum 5)
  /\ callableBlueprint hooked (Plain (DNum 5)) emptyWorld
     = (Throw (DError "Blueprint has not been implemented."),
        World {[ "seen" := DObj {[ "props" := DNum 5 ]} ]} []).
Proof.
  repeat split; try reflexivity.
  discriminate.
Qed.

(** Each [enforce] call merges its values over the accumulated ones. *)
Lemma enforce_accumulates currentState enforced k :
  enforcedValues (Chain.enforce currentState enforced) !! k =
  match spread enforced !! k with
  | Some v => Some v
  | None => enforcedValues currentState !! k
  end.
Proof.
  simpl. unfold spread2. rewrite lookup_union.
  destruct (spread enforced !! k), (enforcedValues currentState !! k); reflexivity.
Qed.

(** After step 2 every enforced key carries its enforced value, for every
    configuration and every input. *)
Lemma applyEnforced_lookup currentState currentProps k v :
  enforcedValues currentState !! k = Some v ->
  spread (applyEnforced currentState currentProps) !! k = Some v.
Proof. intros H. simpl. unfold spread2. apply lookup_union_Some_l, H. Qed.

Lemma runInputMappers_keeps enforced mappers :
  Forall (keepsEnforced enforced) mappers ->
  forall p w q w',
    carries enforced p -> runInputMappers mappers p w = (Ok q, w') ->
    carries enforced q.
Proof.
  induction 1 as [|mapper rest Hmapper _ IH]; intros p w q w' Hp.
  - simpl. unfold ret. intros [= <- <-]. exact Hp.
  - simpl. unfold bind. destruct (mapper p w) as [[next|e] w0] eqn:Hm;
      [|discriminate].
    apply IH. exact (Hmapper p w next w0 Hp Hm).
Qed.

Lemma validatePropsStage_keeps enforced currentState :
  (forall parse, validateProps currentState = true ->
                 propsSchema currentState = Some parse ->
                 keepsEnforced enforced parse) ->
  forall p w q w',
    carries enforced p -> validatePropsStage currentState p w = (Ok q, w') ->
    carries enforced q.
Proof.
  intros Hparse p w q w' Hp. unfold validatePropsStage.
  destruct (validateProps currentState) eqn:Hv;
    [destruct (propsSchema currentState) as [parse|] eqn:Hs|].
  - unfold try_catch. destruct (parse p w) as [[r|e] w0] eqn:Hr.
    + intros [= <- <-]. exact (Hparse parse eq_refl eq_refl p w r w0 Hp Hr).
    + unfold bind, console_error, throw. discriminate.
  - unfold ret. intros [= <- <-]. exact Hp.
  - unfold ret. intros [= <- <-]. exact Hp.
Qed.

Lemma countingMapper_keeps enforced :
  enforced !! "m" = None -> keepsEnforced enforced countingMapper.
Proof.
  intros Hm p w q w' Hp. unfold countingMapper, bind, bump, ret.
  intros [= <- <-] k v Hk. simpl.
  rewrite lookup_insert_ne by (intros <-; congruence). apply Hp, Hk.
Qed.

Lemma markChecked_keeps enforced :
  enforced !! "checked" = None -> keepsEnforced enforced markChecked.
Proof.
  intros Hm p w q w' Hp. unfold markChecked, ret.
  intros [= <- <-] k v Hk. simpl.
  rewrite lookup_insert_ne by (intros <-; congruence). apply Hp, Hk.
Qed.

(** C2, as the code has it: the record the enforcement step produces
    carries every enforced key with its enforced value, whatever the
    caller and the default providers supplied; when every input transform
    and the enabled input validator, if there is one, keep the enforced
    keys, the props that leave input validation, which is what the first
    before hook is given, still carry them; and with no before hook
    configured (a hook is given the very object the core logic receives
    after it) these props are what the core logic is called with. *)
Theorem enforced_values_reach_core currentState props w validatedProps w1 :
  Forall (keepsEnforced (enforcedValues currentState)) (inputMappers currentState) ->
  (forall parse, validateProps currentState = true ->
                 propsSchema currentState = Some parse ->
                 keepsEnforced (enforcedValues currentState) parse) ->
  inputStages currentState props w = (Ok validatedProps, w1) ->
  (forall currentProps, carries (enforcedValues currentState)
                          (applyEnforced currentState currentProps))
  /\ carries (enforcedValues currentState) validatedProps
  /\ (beforeHooks currentState = [] ->
      callableBlueprint currentState props w = runCore currentState validatedProps w1)
  /\ (forall impl, beforeHooks currentState = [] ->
        implementation currentState = Some impl ->
        exists continue_,
          callableBlueprint currentState props w
          = bind (impl validatedProps) continue_ w1).
Proof.
  intros Hm Hv Hin.
  assert (Hcall : beforeHooks currentState = [] ->
            callableBlueprint currentState props w
            = runCore currentState validatedProps w1).
  { intros Hb. unfold callableBlueprint. unfold bind at 1. rewrite Hin, Hb.
    reflexivity. }
  split; [|split; [|split]].
  - intros cp k v Hk. apply applyEnforced_lookup, Hk.
  - revert Hin. unfold inputStages, mappingStages, bind.
    destruct (applyDefaults currentState props w) as [[cp|e] w'];
      [|discriminate].
    destruct (runInputMappers (inputMappers currentState)
                (applyEnforced currentState cp) w') as [[mp|e] w0] eqn:Hmp;
      [|discriminate].
    intros Hvp. eapply validatePropsStage_keeps; [exact Hv| |exact Hvp].
    eapply runInputMappers_keeps; [exact Hm| |exact Hmp].
    intros k v Hk. apply applyEnforced_lookup, Hk.
  - exact Hcall.
  - intros impl Hb Himpl. eexists. rewrite (Hcall Hb). unfold runCore.
    rewrite Himpl. reflexivity.
Qed.

(** [echo] with [defaults({b: 2})], [enforce({b: 100})], an input
    transform and an enabled validator that both add a key of their own:
    called with [{a: 5, b: 10}] the core logic receives [b = 100]. *)
Lemma enforced_values_reach_core_witness :
  let bp := Chain.zProps
              (Chain.input
                 (Chain.enforce
                    (Chain.defaults (initialState (ArgFunction echo))
                       (StaticDefaults (obj [("b", DNum 2)])))
                    (obj [("b", DNum 100)]))
                 countingMapper)
              markChecked in
  let p := obj [("a", DNum 5); ("b", DNum 100); ("m", DNum 3);
                ("checked", DBool true)] in
  spread p !! "b" = Some (DNum 100)
  /\ callableBlueprint bp (obj [("a", DNum 5); ("b", DNum 10)]) emptyWorld
     = (Ok p, World {[ "mapper" := DNum 1 ]} []).
Proof.
  intros bp p.
  destruct (enforced_values_reach_core bp (obj [("a", DNum 5); ("b", DNum 10)])
              emptyWorld p (World {[ "mapper" := DNum 1 ]} []))
    as (_ & Hk & Hcall & _).
  - repeat constructor. apply countingMapper_keeps. reflexivity.
  - intros parse _ [= <-]. apply markChecked_keeps. reflexivity.
  - vm_compute. reflexivity.
  - split.
    + apply Hk. reflexivity.
    + rewrite (Hcall eq_refl). vm_compute. reflexivity.
Defined.

(** C2, as stated, fails: with no input mappers at all, an enabled
    validator whose accepted value drops undeclared keys hands the core
    logic a record without the enforced key [b]. *)
Lemma enforced_key_dropped_by_validator :
  let bp := Chain.zProps
              (Chain.enforce (initialState (ArgFunction echo))
                 (obj [("b", DNum 100)]))
              onlyA in
  inputMappers bp = []
  /\ enforcedValues bp !! "b" = Some (DNum 100)
  /\ callableBlueprint bp (obj [("a", DNum 5); ("b", DNum 10)]) emptyWorld
     = (Ok (Plain (DObj {[ "a" := DNum 5 ]})), emptyWorld)
  /\ spread (Plain (DObj {[ "a" := DNum 5 ]})) !! "b" = None.
Proof. repeat split; vm_compute; reflexivity. Qed.

(** The same happens through an input mapper, which runs after
    enforcement. *)
Lemma enforced_key_overwritten_by_mapper :
  let bp := Chain.input
              (Chain.enforce (initialState (ArgFunction echo))
                 (obj [("b", DNum 100)]))
              zeroB in
  enforcedValues bp !! "b" = Some (DNum 100)
  /\ callableBlueprint bp (obj [("a", DNum 5)]) emptyWorld
     = (Ok (obj [("a", DNum 5); ("b", DNum 0)]), emptyWorld).
Proof. split; vm_compute; reflexivity. Qed.

(* ===================================================================== *)
(** ** Steps 3 and 7: input and output transforms *)
(* ===================================================================== *)

Lemma inputs_mappers ts : forall currentState,
  inputMappers (inputs currentState ts) = rev ts ++ inputMappers currentState.
Proof.
  induction ts as [|t ts IH]; intros st.
  - reflexivity.
  - simpl. unfold inputs in IH. rewrite IH. simpl.
    rewrite <- app_assoc. reflexivity.
Qed.

Lemma inputs_snoc currentState ts t :
  inputs currentState (ts ++ [t]) = Chain.input (inputs currentState ts) t.
Proof. unfold inputs. rewrite foldl_app. reflexivity. Qed.

Lemma runInputMappers_app ms1 : forall ms2 p w,
  runInputMappers (ms1 ++ ms2) p w =
  bind (runInputMappers ms1 p) (runInputMappers ms2) w.
Proof.
  induction ms1 as [|m ms1 IH]; intros ms2 p w.
  - reflexivity.
  - simpl. rewrite bind_assoc. apply bind_ext. intros q w'. apply IH.
Qed.

(** [input] leaves every stage other than the mapper list as it was. *)
Lemma input_same_stages currentState t :
  (forall props w, applyDefaults (Chain.input currentState t) props w
                   = applyDefaults currentState props w)
  /\ (forall cp, applyEnforced (Chain.input currentState t) cp
                 = applyEnforced currentState cp)
  /\ (forall mp, validatePropsStage (Chain.input currentState t) mp
                 = validatePropsStage currentState mp)
  /\ (forall vp, runCore (Chain.input currentState t) vp = runCore currentState vp).
Proof.
  repeat split; reflexivity.
Qed.

(** C6: after [input(t1)], ..., [input(tn)] the mapper list is
    [tn, ..., t1] followed by the earlier mappers; at invocation the
    transform added last is the first to run, on the props as they leave
    defaults and enforcement, and each later-run transform consumes the
    output of the one before it. *)
Theorem input_transforms_run_last_added_first :
  (forall currentState ts,
     inputMappers (inputs currentState ts) = rev ts ++ inputMappers currentState)
  /\ (forall currentState ts t p w,
        runInputMappers (inputMappers (inputs currentState (ts ++ [t]))) p w =
        bind (t p) (runInputMappers (inputMappers (inputs currentState ts))) w)
  /\ (forall ts1 ts2 p w,
        runInputMappers (ts1 ++ ts2) p w =
        bind (runInputMappers ts1 p) (runInputMappers ts2) w)
  /\ (forall currentState t props w,
        callableBlueprint (Chain.input currentState t) props w =
        bind (applyDefaults currentState props)
          (fun currentProps =>
             let* first := t (applyEnforced currentState currentProps) in
             let* mappedProps :=
               runInputMappers (inputMappers currentState) first in
             let* validatedProps := validatePropsStage currentState mappedProps in
             let* _ := runBeforeHooks (beforeHooks currentState) validatedProps in
             runCore currentState validatedProps) w).
Proof.
  split; [|split; [|split]].
  - intros st ts. apply inputs_mappers.
  - intros st ts t p w. rewrite inputs_snoc. reflexivity.
  - intros ts1 ts2 p w. apply runInputMappers_app.
  - intros st t props w.
    destruct (input_same_stages st t) as (Hd & _ & _ & _).
    unfold callableBlueprint, inputStages, mappingStages.
    rewrite !bind_assoc. apply bind_cong; [apply Hd|]. intros cp w1.
    simpl. rewrite !bind_assoc. reflexivity.
Qed.

Lemma outputs_mappers ts : forall currentState,
  outputMappers (outputs currentState ts) = outputMappers currentState ++ ts.
Proof.
  induction ts as [|t ts IH]; intros st.
  - simpl. rewrite app_nil_r. reflexivity.
  - simpl. unfold outputs in IH. rewrite IH. simpl.
    rewrite <- app_assoc. reflexivity.
Qed.

Lemma runOutputMappers_app ms1 : forall ms2 r vp w,
  runOutputMappers (ms1 ++ ms2) r vp w =
  bind (runOutputMappers ms1 r vp) (fun r' => runOutputMappers ms2 r' vp) w.
Proof.
  induction ms1 as [|m ms1 IH]; intros ms2 r vp w.
  - reflexivity.
  - simpl. rewrite bind_assoc. apply bind_ext. intros q w'. apply IH.
Qed.

(** C7: after [output(t1)], ..., [output(tn)] the mapper list is the
    earlier mappers followed by [t1, ..., tn]; they run in that order,
    each on the running result and the validated props (what the input
    stages produced, here a validator's normalised record rather than the
    caller's input), each producing the next running result. *)
Theorem output_transforms_run_in_order :
  (forall currentState ts,
     outputMappers (outputs currentState ts) = outputMappers currentState ++ ts)
  /\ (forall ms t r validatedProps w,
        runOutputMappers (ms ++ [t]) r validatedProps w =
        bind (runOutputMappers ms r validatedProps)
             (fun running => t running validatedProps) w)
  /\ (forall currentState impl props w,
        implementation currentState = Some impl ->
        callableBlueprint currentState props w =
        bind (inputStages currentState props)
          (fun validatedProps =>
             let* _ := runBeforeHooks (beforeHooks currentState) validatedProps in
             let* coreResult := impl validatedProps in
             let result :=
               if isAsync currentState && negb (isThenable coreResult)
               then promiseResolve coreResult else coreResult in
             let finalize := fun resolved =>
               let* currentResult :=
                 runOutputMappers (outputMappers currentState) resolved
                   validatedProps in
               let* validatedResult :=
                 validateResultStage currentState currentResult in
               let* _ := runAfterHooks (afterHooks currentState) validatedResult
                           validatedProps in
               ret (if isVoid currentState then Plain DUndefined
                    else validatedResult) in
             if isThenable result then then_ result finalize
             else finalize result) w)
  /\ (let bp := Chain.output (Chain.zProps (initialState (ArgFunction constOne))
                                markChecked) secondArg in
      callableBlueprint bp (obj [("a", DNum 5)]) emptyWorld
      = (Ok (obj [("a", DNum 5); ("checked", DBool true)]), emptyWorld)).
Proof.
  split; [|split; [|split]].
  - intros st ts. apply outputs_mappers.
  - intros ms t r vp w. rewrite runOutputMappers_app. apply bind_ext.
    intros r' w'. simpl. apply bind_ret_r.
  - intros st impl props w Himpl.
    unfold callableBlueprint. apply bind_ext. intros vp w1.
    apply bind_ext. intros _ w2. unfold runCore. rewrite Himpl.
    apply bind_ext. intros coreResult w3.
    set (result := if isAsync st && negb (isThenable coreResult)
                   then promiseResolve coreResult else coreResult).
    assert (Hfin : forall resolved w',
      processResultAndFinalize st vp resolved w' =
      (let* currentResult := runOutputMappers (outputMappers st) resolved vp in
       let* validatedResult := validateResultStage st currentResult in
       let* _ := runAfterHooks (afterHooks st) validatedResult vp in
       ret (if isVoid st then Plain DUndefined else validatedResult)) w').
    { intros resolved w'. unfold processResultAndFinalize.
      apply bind_ext. intros cr w4. apply bind_ext. intros vr w5.
      apply bind_ext. intros _ w6. destruct (isVoid st); reflexivity. }
    destruct (isThenable result).
    + unfold then_. destruct (promiseResolve result) as [d|[|d|e]]; try reflexivity.
      rewrite Hfin. reflexivity.
    + apply Hfin.
  - vm_compute. reflexivity.
Qed.

Lemma output_transforms_run_in_order_witness :
  let bp := Chain.output (Chain.zProps (initialState (ArgFunction constOne))
                            markChecked) secondArg in
  outputMappers (outputs (initialState ArgNone) [secondArg; secondArg])
    = [secondArg; secondArg]
  /\ callableBlueprint bp (obj [("a", DNum 5)]) emptyWorld
     = (Ok (obj [("a", DNum 5); ("checked", DBool true)]), emptyWorld).
Proof.
  intros bp.
  destruct output_transforms_run_in_order as (Hlist & _ & Hcall & _).
  split.
  - rewrite Hlist. reflexivity.
  - rewrite (Hcall bp constOne) by reflexivity. vm_compute. reflexivity.
Defined.

(* ===================================================================== *)
(** ** Steps 3.5 to 5: validation failure and missing implementation *)
(* ===================================================================== *)

(** C8: when the enabled input validator rejects the mapped props, the
    invocation fails with the validator's error right after logging it;
    the outcome is the same whatever the core logic, the hooks, the output
    side and the flags are, so none of them runs.  The theorem is used
    below on the validator that requires a non-empty [name]. *)
Theorem props_validation_failure_aborts
    currentState parse props w mappedProps w1 e w2 :
  validateProps currentState = true ->
  propsSchema currentState = Some parse ->
  mappingStages currentState props w = (Ok mappedProps, w1) ->
  parse mappedProps w1 = (Throw e, w2) ->
  callableBlueprint currentState props w
    = (Throw e,
       World (vars w2)
         (console w2 ++ [("Blueprint props validation error.", mappedProps)]))
  /\ (forall other,
        defaultProviders other = defaultProviders currentState ->
        enforcedValues other = enforcedValues currentState ->
        inputMappers other = inputMappers currentState ->
        validateProps other = true ->
        propsSchema other = Some parse ->
        callableBlueprint other props w = callableBlueprint currentState props w).
Proof.
  intros Hflag Hschema Hmap Hparse.
  assert (Hfail : forall st,
    validateProps st = true -> propsSchema st = Some parse ->
    mappingStages st props w = (Ok mappedProps, w1) ->
    callableBlueprint st props w
    = (Throw e,
       World (vars w2)
         (console w2 ++ [("Blueprint props validation error.", mappedProps)]))).
  { intros st Hf Hs Hm. unfold callableBlueprint, inputStages.
    rewrite bind_assoc. unfold bind at 1. rewrite Hm.
    unfold bind at 1. unfold validatePropsStage. rewrite Hf, Hs.
    unfold try_catch. rewrite Hparse. reflexivity. }
  split.
  - apply Hfail; assumption.
  - intros other Hp He Hm Hf Hs. rewrite (Hfail currentState) by assumption.
    apply Hfail; try assumption.
    rewrite <- Hmap. unfold mappingStages.
    apply bind_cong.
    + rewrite !applyDefaults_merge.
      unfold initialProps. rewrite Hp. reflexivity.
    + intros cp w'. unfold applyEnforced. rewrite He, Hm. reflexivity.
Qed.

(** Scenario 5: the validator requires a non-empty [name]; invoking with
    [{ name: "" }] fails with the validator's error, and the counter the
    core logic would have incremented is untouched. *)
Lemma props_validation_failure_aborts_witness :
  let bp := Chain.zProps (initialState (ArgFunction countingCore)) requireName in
  callableBlueprint bp (obj [("name", DStr "")]) emptyWorld
  = (Throw (DError "name: too short"),
     World ∅ [("Blueprint props validation error.", obj [("name", DStr "")])])
  /\ callableBlueprint (Chain.implement bp echo) (obj [("name", DStr "")]) emptyWorld
     = callableBlueprint bp (obj [("name", DStr "")]) emptyWorld.
Proof.
  intros bp.
  destruct (props_validation_failure_aborts bp requireName
              (obj [("name", DStr "")]) emptyWorld
              (obj [("name", DStr "")]) emptyWorld
              (DError "name: too short") emptyWorld) as [Hcall Hother];
    [reflexivity | reflexivity | vm_compute; reflexivity | reflexivity |].
  split.
  - exact Hcall.
  - apply Hother; reflexivity.
Defined.

(** C10: with no core logic set, the invocation first resolves the
    defaults, merges the enforced values, runs the input transforms,
    validates the input and runs every before hook, in this order, and
    throws the unimplemented-pipeline error only then, in the world these
    stages left; a failure of any of these stages is what the caller sees
    instead. *)
Theorem unimplemented_error_after_before_hooks currentState props w :
  implementation currentState = None ->
  callableBlueprint currentState props w =
  match (let* withDefaults := applyDefaults currentState props in
         let* mappedProps :=
           runInputMappers (inputMappers currentState)
             (applyEnforced currentState withDefaults) in
         let* validatedProps := validatePropsStage currentState mappedProps in
         runBeforeHooks (beforeHooks currentState) validatedProps) w with
  | (Ok _, w') => (Throw (DError (notImplementedMessage currentState)), w')
  | (Throw e, w') => (Throw e, w')
  end.
Proof.
  intros Himpl. unfold callableBlueprint, inputStages, mappingStages, bind.
  destruct (applyDefaults currentState props w) as [[cp|e] w0]; [|reflexivity].
  destruct (runInputMappers (inputMappers currentState)
              (applyEnforced currentState cp) w0) as [[mp|e] w1]; [|reflexivity].
  destruct (validatePropsStage currentState mp w1) as [[vp|e] w2]; [|reflexivity].
  destruct (runBeforeHooks (beforeHooks currentState) vp w2) as [[[]|e] w3];
    [|reflexivity].
  unfold runCore. rewrite Himpl. reflexivity.
Qed.

(** A blueprint with no core logic in which a provider, an enforced
    value, an input transform, a validator and two before hooks are all
    configured: when the error arrives each of them has run once, and the
    hooks have seen the caller's key, the default, the enforced value and
    the transform's key.  With a failing transform in the same blueprint
    the caller sees the transform's error: neither validator nor hook has
    run and no unimplemented-pipeline error is thrown. *)
Lemma unimplemented_error_after_before_hooks_witness :
  callableBlueprint (staged countingMapper) (obj [("a", DNum 5)]) emptyWorld
  = (Throw (DError "Blueprint has not been implemented."),
     World {[ "defaults" := DNum 1; "mapper" := DNum 1; "validator" := DNum 1;
              "hooks" := DNum 1;
              "seen" := DObj {[ "a" := DNum 5; "d" := DNum 1; "e" := DNum 2;
                                "m" := DNum 3 ]} ]} [])
  /\ callableBlueprint (staged failingMapper) (obj [("a", DNum 5)]) emptyWorld
     = (Throw (DError "mapper failed"), World {[ "defaults" := DNum 1 ]} []).
Proof.
  split.
  - rewrite (unimplemented_error_after_before_hooks
               (staged countingMapper) (obj [("a", DNum 5)]) emptyWorld eq_refl).
    vm_compute. reflexivity.
  - rewrite (unimplemented_error_after_before_hooks
               (staged failingMapper) (obj [("a", DNum 5)]) emptyWorld eq_refl).
    vm_compute. reflexivity.
Defined.

(* ===================================================================== *)
(** ** [pipe] *)
(* ===================================================================== *)

Lemma then_ext p k k' w :
  (forall v w', k v w' = k' v w') -> then_ p k w = then_ p k' w.
Proof.
  intros H. unfold then_. destruct (promiseResolve p) as [d|[|d|e]]; try reflexivity.
  rewrite H. reflexivity.
Qed.

(** A blueprint made asynchronous only ever returns promises. *)
Lemma async_returns_promise currentState props w r w' :
  isAsync currentState = true ->
  callableBlueprint currentState props w = (Ok r, w') ->
  isThenable r = true.
Proof.
  intros Hasync. unfold callableBlueprint, bind.
  destruct (inputStages currentState props w) as [[vp|e] w1]; [|discriminate].
  destruct (runBeforeHooks (beforeHooks currentState) vp w1) as [[[]|e] w2];
    [|discriminate].
  unfold runCore. destruct (implementation currentState) as [impl|];
    [|discriminate].
  unfold bind. destruct (impl vp w2) as [[result|e] w3]; [|discriminate].
  rewrite Hasync. simpl.
  assert (Hth : isThenable (if negb (isThenable result)
                            then promiseResolve result else result) = true).
  { destruct result; reflexivity. }
  rewrite Hth.
  destruct (then_returns_promise
              (if negb (isThenable result) then promiseResolve result else result)
              (processResultAndFinalize currentState vp) w3) as (q & w4 & Hq).
  rewrite Hq. intros [= <- <-]. reflexivity.
Qed.

(** The piped callable has no stage of its own before its core logic:
    its input side only turns the caller's input into a record. *)
Lemma pipe_inputStages currentState next props w :
  inputStages (Chain.pipe currentState next) props w
  = (Ok (Plain (DObj (callerRecord props))), w).
Proof.
  unfold inputStages, mappingStages. unfold bind at 1 2.
  rewrite applyDefaults_merge. simpl.
  unfold validatePropsStage, applyEnforced, spread2. simpl.
  rewrite (right_id_L ∅ (∪)), (left_id_L ∅ (∪)). reflexivity.
Qed.

Lemma pipe_finalize currentState next validatedProps r w :
  processResultAndFinalize (Chain.pipe currentState next) validatedProps r w
  = (Ok (if isVoid currentState then Plain DUndefined else r), w).
Proof.
  unfold processResultAndFinalize. simpl. destruct (isVoid currentState); reflexivity.
Qed.

(** Invoking a blueprint on the record built from an input is the same
    as invoking it on the input, unless a default provider gets to see a
    primitive input. *)
Lemma callableBlueprint_callerRecord currentState props w :
  isObjectNotNull props || isUndefined props = true
  \/ defaultProviders currentState = [] ->
  callableBlueprint currentState (Plain (DObj (callerRecord props))) w
  = callableBlueprint currentState props w.
Proof.
  intros Hcond. unfold callableBlueprint, inputStages, mappingStages.
  rewrite !bind_assoc. apply bind_cong; [|reflexivity].
  rewrite !applyDefaults_merge.
  change (callerRecord (Plain (DObj (callerRecord props)))) with (callerRecord props).
  apply bind_cong; [|reflexivity].
  destruct Hcond as [Hshape | Hnone].
  - apply orb_true_iff in Hshape as [Hobj | Hund].
    + unfold initialProps. simpl.
      rewrite Hobj. unfold callerRecord. rewrite Hobj.
      destruct props as [[]|]; try discriminate; reflexivity.
    + destruct props as [[]|]; try discriminate.
      unfold initialProps. simpl.
      destruct (defaultProviders currentState); reflexivity.
  - rewrite Hnone. reflexivity.
Qed.

Lemma finalize_void currentState validatedProps v w r w' :
  isVoid currentState = true ->
  processResultAndFinalize currentState validatedProps v w = (Ok r, w') ->
  r = Plain DUndefined.
Proof.
  intros Hv. unfold processResultAndFinalize, bind.
  destruct (runOutputMappers _ v validatedProps w) as [[cr|e] w1]; [|discriminate].
  destruct (validateResultStage currentState cr w1) as [[vr|e] w2]; [|discriminate].
  destruct (runAfterHooks _ vr validatedProps w2) as [[[]|e] w3]; [|discriminate].
  rewrite Hv. unfold ret. intros [= <- _]. reflexivity.
Qed.

(** What a callable whose [isVoid] flag is set can return. *)
Lemma void_result currentState props w r w' :
  isVoid currentState = true ->
  callableBlueprint currentState props w = (Ok r, w') ->
  r = Plain DUndefined
  \/ r = Deferred Pending
  \/ (exists e, r = Deferred (Rejected e))
  \/ r = Deferred (Fulfilled DUndefined).
Proof.
  intros Hv. unfold callableBlueprint, bind.
  destruct (inputStages currentState props w) as [[vp|e0] w1]; [|discriminate].
  destruct (runBeforeHooks _ vp w1) as [[[]|e0] w2]; [|discriminate].
  unfold runCore. destruct (implementation currentState) as [impl|];
    [|discriminate].
  unfold bind. destruct (impl vp w2) as [[result|e0] w3]; [|discriminate].
  set (result' := if isAsync currentState && negb (isThenable result)
                  then promiseResolve result else result).
  destruct (isThenable result') eqn:Hth.
  - unfold then_.
    destruct (promiseResolve result') as [d|[|d|e0]] eqn:Hres.
    + destruct result'; discriminate.
    + intros [= <- _]. auto.
    + destruct (processResultAndFinalize currentState vp (Plain d) w3)
        as [[r0|e0] w4] eqn:Hfin; intros [= <- _]; [|eauto].
      rewrite (finalize_void _ _ _ _ _ _ Hv Hfin). auto.
    + intros [= <- _]. eauto.
  - intros Hfin. left. exact (finalize_void _ _ _ _ _ _ Hv Hfin).
Qed.

(** C3, as the code has it: for a receiver whose [isVoid] flag is unset,
    and an input that is an object or [undefined] (or a receiver without
    default providers), the piped callable returns [next] applied to the
    receiver's result, through [then] when that result is a promise, and
    fails as the receiver fails; its own mapper, hook and validator
    fields start empty and its two flags are the receiver's; and for a
    receiver whose [isVoid] flag is set the piped callable, void itself,
    returns [undefined] or a promise that is pending, rejected or
    fulfilled with [undefined], whatever [next] returns. *)
Theorem pipe_composes currentState next props w :
  (isVoid currentState = false ->
   (isObjectNotNull props || isUndefined props = true
    \/ defaultProviders currentState = []) ->
   callableBlueprint (Chain.pipe currentState next) props w
     = match callableBlueprint currentState props w with
       | (Ok r, w') => if isThenable r then then_ r next w' else next r w'
       | (Throw e, w') => (Throw e, w')
       end)
  /\ (isVoid currentState = true ->
      forall r w',
        callableBlueprint (Chain.pipe currentState next) props w = (Ok r, w') ->
        r = Plain DUndefined
        \/ r = Deferred Pending
        \/ (exists e, r = Deferred (Rejected e))
        \/ r = Deferred (Fulfilled DUndefined))
  /\ inputMappers (Chain.pipe currentState next) = []
  /\ outputMappers (Chain.pipe currentState next) = []
  /\ beforeHooks (Chain.pipe currentState next) = []
  /\ afterHooks (Chain.pipe currentState next) = []
  /\ defaultProviders (Chain.pipe currentState next) = []
  /\ enforcedValues (Chain.pipe currentState next) = ∅
  /\ propsSchema (Chain.pipe currentState next) = None
  /\ resultSchema (Chain.pipe currentState next) = None
  /\ validateProps (Chain.pipe currentState next) = false
  /\ validateResults (Chain.pipe currentState next) = false
  /\ isAsync (Chain.pipe currentState next) = isAsync currentState
  /\ isVoid (Chain.pipe currentState next) = isVoid currentState.
Proof.
  split; [|split; [|repeat split]].
  2:{ intros Hvoid r w'. apply void_result. exact Hvoid. }
  intros Hvoid Hcond.
  unfold callableBlueprint at 1. unfold bind at 1. rewrite pipe_inputStages.
  unfold bind at 1. simpl runBeforeHooks. unfold ret at 1.
  unfold runCore.
  change (implementation (Chain.pipe currentState next))
    with (Some (Chain.newImplementation currentState next)).
  change (isAsync (Chain.pipe currentState next)) with (isAsync currentState).
  cbv beta iota. unfold Chain.newImplementation.
  rewrite bind_assoc. unfold bind at 1.
  rewrite callableBlueprint_callerRecord by assumption.
  destruct (callableBlueprint currentState props w) as [[r|e] w1] eqn:Hcall;
    [|reflexivity].
  assert (Hfin : forall v w',
    processResultAndFinalize (Chain.pipe currentState next)
      (Plain (DObj (callerRecord props))) v w' = ret v w').
  { intros v w'. rewrite pipe_finalize, Hvoid. reflexivity. }
  change (fun resolvedCurrentResult : value => next resolvedCurrentResult)
    with next.
  destruct (isThenable r) eqn:Hr.
  - destruct (then_returns_promise r next w1) as (q & w2 & Hq).
    unfold bind. rewrite Hq.
    replace (isAsync currentState && negb (isThenable (Deferred q)))
      with false by (destruct (isAsync currentState); reflexivity).
    change (isThenable (Deferred q)) with true. cbv iota.
    rewrite (then_ext _ _ ret) by apply Hfin. apply then_ret. reflexivity.
  - assert (Hasync : isAsync currentState = false).
    { destruct (isAsync currentState) eqn:Ha; [|reflexivity].
      rewrite (async_returns_promise _ _ _ _ _ Ha Hcall) in Hr. discriminate. }
    unfold bind. destruct (next r w1) as [[v|e] w2]; [|reflexivity].
    rewrite Hasync. cbn [andb].
    destruct (isThenable v) eqn:Hv.
    + rewrite (then_ext _ _ ret) by apply Hfin. apply then_ret, Hv.
    + apply Hfin.
Qed.

(** [blueprint(() => 1).pipe(() => 42)] answers 42; with the receiver
    made void and asynchronous the piped callable answers a promise
    fulfilled with [undefined]. *)
Lemma pipe_composes_witness :
  callableBlueprint
    (Chain.pipe (initialState (ArgFunction constOne)) constFortyTwo)
    (obj []) emptyWorld
  = (Ok (Plain (DNum 42)), emptyWorld)
  /\ callableBlueprint
       (Chain.pipe (Chain.toAsync (Chain.toVoid (initialState (ArgFunction constOne))))
          constFortyTwo)
       (obj []) emptyWorld
     = (Ok (Deferred (Fulfilled DUndefined)), emptyWorld).
Proof.
  split.
  - destruct (pipe_composes (initialState (ArgFunction constOne)) constFortyTwo
                (obj []) emptyWorld) as [Hcall _].
    rewrite Hcall; [reflexivity | reflexivity | left; reflexivity].
  - destruct (pipe_composes
                (Chain.toAsync (Chain.toVoid (initialState (ArgFunction constOne))))
                constFortyTwo (obj []) emptyWorld) as (_ & Hvoid & _).
    destruct (callableBlueprint
                (Chain.pipe (Chain.toAsync
                               (Chain.toVoid (initialState (ArgFunction constOne))))
                   constFortyTwo) (obj []) emptyWorld) as [[r|e] w'] eqn:Hcall.
    + vm_compute in Hcall. injection Hcall as <- <-. reflexivity.
    + vm_compute in Hcall. discriminate.
Defined.

(** C3, as stated, fails: the receiver below is void, so it returns
    [undefined] (not a promise); [next] maps that to [42]; yet the piped
    callable, which inherits the void flag, returns [undefined]. *)
Lemma pipe_of_void_receiver_drops_next_result :
  let P := Chain.toVoid (initialState (ArgFunction constOne)) in
  callableBlueprint P (obj []) emptyWorld = (Ok (Plain DUndefined), emptyWorld)
  /\ constFortyTwo (Plain DUndefined) emptyWorld
     = (Ok (Plain (DNum 42)), emptyWorld)
  /\ callableBlueprint (Chain.pipe P constFortyTwo) (obj []) emptyWorld
     = (Ok (Plain DUndefined), emptyWorld).
Proof. repeat split. Qed.

(** A primitive input reaches the receiver wrapped, which a default
    provider can tell apart. *)
Lemma pipe_wraps_primitive_input :
  let P := Chain.defaults (initialState (ArgFunction echo))
             (ProviderFn numberSensitive) in
  callableBlueprint P (Plain (DNum 5)) emptyWorld
  = (Ok (obj [("b", DNum 1); ("props", DNum 5)]), emptyWorld)
  /\ callableBlueprint (Chain.pipe P echo) (Plain (DNum 5)) emptyWorld
     = (Ok (obj [("b", DNum 2); ("props", DNum 5)]), emptyWorld).
Proof. split; vm_compute; reflexivity. Qed.

(* ===================================================================== *)
(** ** Chain methods and object identity *)
(* ===================================================================== *)

Lemma load_Some s currentState st :
  Heap.load s currentState = Some st ->
  Heap.fnArray s (Heap.inputMappers currentState) = Some (inputMappers st)
  /\ Heap.fn2Array s (Heap.outputMappers currentState) = Some (outputMappers st)
  /\ Heap.fnArray s (Heap.beforeHooks currentState) = Some (beforeHooks st)
  /\ Heap.fn2Array s (Heap.afterHooks currentState) = Some (afterHooks st)
  /\ Heap.fnArray s (Heap.defaultProviders currentState) = Some (defaultProviders st)
  /\ Heap.object s (Heap.enforcedValues currentState) = Some (enforcedValues st)
  /\ st = Build_BlueprintState
            (Heap.key currentState) (Heap.description currentState)
            (Heap.implementation currentState)
            (inputMappers st) (outputMappers st) (beforeHooks st) (afterHooks st)
            (defaultProviders st) (enforcedValues st)
            (Heap.isAsync currentState) (Heap.isVoid currentState)
            (Heap.validateProps currentState) (Heap.propsSchema currentState)
            (Heap.validateResults currentState) (Heap.resultSchema currentState).
Proof.
  unfold Heap.load.
  destruct (Heap.fnArray s (Heap.inputMappers currentState)) as [im|]; [|discriminate].
  destruct (Heap.fn2Array s (Heap.outputMappers currentState)) as [om|]; [|discriminate].
  destruct (Heap.fnArray s (Heap.beforeHooks currentState)) as [bh|]; [|discriminate].
  destruct (Heap.fn2Array s (Heap.afterHooks currentState)) as [ah|]; [|discriminate].
  destruct (Heap.fnArray s (Heap.defaultProviders currentState)) as [dp|]; [|discriminate].
  destruct (Heap.object s (Heap.enforcedValues currentState)) as [ev|]; [|discriminate].
  simpl. intros [= <-]. simpl. repeat split; reflexivity.
Qed.

Lemma fnArray_extends s s' r l :
  Heap.extends s s' -> Heap.fnArray s r = Some l -> Heap.fnArray s' r = Some l.
Proof.
  intros [Hc _]. unfold Heap.fnArray.
  destruct (Heap.cells s !! r) as [c|] eqn:Hr; [|discriminate].
  rewrite (Hc _ _ Hr). trivial.
Qed.

Lemma fn2Array_extends s s' r l :
  Heap.extends s s' -> Heap.fn2Array s r = Some l -> Heap.fn2Array s' r = Some l.
Proof.
  intros [Hc _]. unfold Heap.fn2Array.
  destruct (Heap.cells s !! r) as [c|] eqn:Hr; [|discriminate].
  rewrite (Hc _ _ Hr). trivial.
Qed.

Lemma object_extends s s' r o :
  Heap.extends s s' -> Heap.object s r = Some o -> Heap.object s' r = Some o.
Proof.
  intros [Hc _]. unfold Heap.object.
  destruct (Heap.cells s !! r) as [c|] eqn:Hr; [|discriminate].
  rewrite (Hc _ _ Hr). trivial.
Qed.

(** A state object reads the same in every later store. *)
Lemma load_extends s s' currentState st :
  Heap.extends s s' ->
  Heap.load s currentState = Some st -> Heap.load s' currentState = Some st.
Proof.
  intros He Hl. destruct (load_Some _ _ _ Hl) as (H1 & H2 & H3 & H4 & H5 & H6 & Hst).
  unfold Heap.load.
  rewrite (fnArray_extends _ _ _ _ He H1), (fn2Array_extends _ _ _ _ He H2),
    (fnArray_extends _ _ _ _ He H3), (fn2Array_extends _ _ _ _ He H4),
    (fnArray_extends _ _ _ _ He H5), (object_extends _ _ _ _ He H6).
  simpl. f_equal. symmetry. exact Hst.
Qed.

Lemma stateOf_extends s s' b st :
  Heap.extends s s' -> Heap.stateOf s b = Some st -> Heap.stateOf s' b = Some st.
Proof.
  intros He. unfold Heap.stateOf.
  destruct (Heap.callables s !! b) as [o|] eqn:Hb; [|discriminate].
  rewrite (proj2 He _ _ Hb). simpl. apply load_extends, He.
Qed.

Lemma extends_grow s more_cells more_callables :
  Heap.extends s {| Heap.cells := Heap.cells s ++ more_cells;
                    Heap.callables := Heap.callables s ++ more_callables |}.
Proof.
  split; simpl; intros i x Hx; apply lookup_app_l_Some, Hx.
Qed.

Lemma fnArray_found s r l :
  Heap.cells s !! r = Some (Heap.FnArray l) -> Heap.fnArray s r = Some l.
Proof. unfold Heap.fnArray. intros ->. reflexivity. Qed.

Lemma fn2Array_found s r l :
  Heap.cells s !! r = Some (Heap.Fn2Array l) -> Heap.fn2Array s r = Some l.
Proof. unfold Heap.fn2Array. intros ->. reflexivity. Qed.

Lemma object_found s r o :
  Heap.cells s !! r = Some (Heap.Object o) -> Heap.object s r = Some o.
Proof. unfold Heap.object. intros ->. reflexivity. Qed.

Lemma load_intro s currentState im om bh ah dp ev :
  Heap.fnArray s (Heap.inputMappers currentState) = Some im ->
  Heap.fn2Array s (Heap.outputMappers currentState) = Some om ->
  Heap.fnArray s (Heap.beforeHooks currentState) = Some bh ->
  Heap.fn2Array s (Heap.afterHooks currentState) = Some ah ->
  Heap.fnArray s (Heap.defaultProviders currentState) = Some dp ->
  Heap.object s (Heap.enforcedValues currentState) = Some ev ->
  Heap.load s currentState =
  Some (Build_BlueprintState
          (Heap.key currentState) (Heap.description currentState)
          (Heap.implementation currentState) im om bh ah dp ev
          (Heap.isAsync currentState) (Heap.isVoid currentState)
          (Heap.validateProps currentState) (Heap.propsSchema currentState)
          (Heap.validateResults currentState) (Heap.resultSchema currentState)).
Proof.
  intros H1 H2 H3 H4 H5 H6. unfold Heap.load.
  rewrite H1, H2, H3, H4, H5, H6. reflexivity.
Qed.

Ltac grown :=
  split; simpl; intros ? ? Hx; repeat apply lookup_app_l_Some; exact Hx.

Ltac cell_lookup :=
  simpl; repeat first [ apply list_lookup_middle; reflexivity
                      | apply lookup_app_l_Some ].

Ltac reference He :=
  simpl;
  first [ eapply fnArray_extends; [exact He | eassumption]
        | eapply fn2Array_extends; [exact He | eassumption]
        | eapply object_extends; [exact He | eassumption]
        | eapply fnArray_found; cell_lookup
        | eapply fn2Array_found; cell_lookup
        | eapply object_found; cell_lookup ].

Ltac created Hst :=
  do 2 eexists; split; [reflexivity|];
  match goal with
  | |- Heap.extends ?s ?s' /\ _ =>
      assert (He : Heap.extends s s') by grown;
      split; [exact He|]; split; [reflexivity|];
      etransitivity;
      [ eapply load_intro; reference He
      | simpl; rewrite Hst; reflexivity ]
  end.

(** Each chain method creates one callable, whose state object reads as
    the derived state, and leaves everything the store held in place. *)
Lemma chainCall_creates m s self currentStateObject currentState :
  Heap.callables s !! self = Some currentStateObject ->
  Heap.load s currentStateObject = Some currentState ->
  exists s' derived,
    Heap.chainCall m self s = Some (length (Heap.callables s), s')
    /\ Heap.extends s s'
    /\ Heap.callables s' = Heap.callables s ++ [derived]
    /\ Heap.load s' derived = Some (derivedState m currentState).
Proof.
  intros Hself Hload.
  destruct (load_Some _ _ _ Hload) as (H1 & H2 & H3 & H4 & H5 & H6 & Hst).
  destruct m; simpl.
  - unfold Heap.implement. rewrite Hself. simpl. created Hst.
  - unfold Heap.input. rewrite Hself. simpl. rewrite H1. simpl. created Hst.
  - unfold Heap.defaults. rewrite Hself. simpl. rewrite H5. simpl. created Hst.
  - unfold Heap.enforce. rewrite Hself. simpl. rewrite H6. simpl. created Hst.
  - unfold Heap.output. rewrite Hself. simpl. rewrite H2. simpl. created Hst.
  - unfold Heap.before. rewrite Hself. simpl. rewrite H3. simpl. created Hst.
  - unfold Heap.after. rewrite Hself. simpl. rewrite H4. simpl. created Hst.
  - unfold Heap.toAsync. rewrite Hself. simpl. created Hst.
  - unfold Heap.toVoid. rewrite Hself. simpl. created Hst.
  - unfold Heap.zProps. rewrite Hself. simpl. created Hst.
  - unfold Heap.zResult. rewrite Hself. simpl. created Hst.
  - unfold Heap.pipe. rewrite Hself. simpl. rewrite Hload. simpl. created Hst.
Qed.

(** The factory, too, only adds to the store. *)
Lemma blueprint_extends optionsOrImplementation s :
  Heap.extends s (snd (Heap.blueprint optionsOrImplementation s)).
Proof. unfold Heap.blueprint. simpl. grown. Qed.

(** C1, as the code has it: in the engine every chain method
    ([implement], [input], [defaults], [enforce], [output], [before],
    [after], [toAsync], [toVoid], [zProps], [zResult], [pipe]) called on a
    callable returns a newly created callable, distinct from the receiver
    and from every earlier callable, whose state is the derived state;
    the receiver's state object, the arrays and the object it refers to,
    and every earlier callable are left as they were, so that the
    receiver and every earlier callable give afterwards the same outcome
    on every input and world, and the new callable behaves as the derived
    state says. *)
Theorem chain_methods_non_destructive m (s : Heap.Store) self currentState :
  Heap.stateOf s self = Some currentState ->
  exists s',
    Heap.chainCall m self s = Some (length (Heap.callables s), s')
    /\ length (Heap.callables s) <> self
    /\ Heap.callables s !! length (Heap.callables s) = None
    /\ Heap.extends s s'
    /\ Heap.stateOf s' self = Some currentState
    /\ Heap.stateOf s' (length (Heap.callables s))
       = Some (derivedState m currentState)
    /\ (forall b st, Heap.stateOf s b = Some st -> Heap.stateOf s' b = Some st)
    /\ (forall b st props w, Heap.stateOf s b = Some st ->
          Heap.invoke s' b props w = Heap.invoke s b props w)
    /\ (forall props w,
          Heap.invoke s' (length (Heap.callables s)) props w
          = callableBlueprint (derivedState m currentState) props w).
Proof.
  intros Hstate. pose proof Hstate as Hstate'. unfold Heap.stateOf in Hstate'.
  destruct (Heap.callables s !! self) as [so|] eqn:Hself; [|discriminate].
  simpl in Hstate'.
  destruct (chainCall_creates m s self so currentState Hself Hstate')
    as (s' & derived & Hcall & He & Hcs & Hderived).
  pose proof (lookup_lt_Some _ _ _ Hself) as Hlt.
  assert (Hnew : Heap.stateOf s' (length (Heap.callables s))
                 = Some (derivedState m currentState)).
  { unfold Heap.stateOf. rewrite Hcs, list_lookup_middle by reflexivity.
    exact Hderived. }
  exists s'. repeat split.
  - exact Hcall.
  - lia.
  - apply lookup_ge_None_2. lia.
  - apply He.
  - apply He.
  - apply stateOf_extends with (1 := He), Hstate.
  - exact Hnew.
  - intros b st. apply stateOf_extends, He.
  - intros b st props w Hb. unfold Heap.invoke.
    rewrite (stateOf_extends _ _ _ _ He Hb), Hb. reflexivity.
  - intros props w. unfold Heap.invoke. rewrite Hnew. reflexivity.
Qed.

(** Every chain method called on one receiver created by
    [blueprint(props => props)]: each call returns the callable 1, leaves
    the receiver's outcome as it was and gives the new callable the
    derived state; after all twelve derivations in a row the receiver
    still returns its input, while the callable [implement] returned
    answers 42, the one [input] returned sets [b] to 0 and the one
    [enforce] returned forces [b] to 100. *)
Lemma chain_methods_non_destructive_witness :
  let s0 := snd (Heap.blueprint (ArgFunction echo) Heap.empty) in
  let x := obj [("a", DNum 5)] in
  Forall (fun m =>
            exists s',
              Heap.chainCall m 0 s0 = Some (1, s')
              /\ Heap.invoke s' 0 x emptyWorld = (Ok x, emptyWorld)
              /\ Heap.stateOf s' 1
                 = Some (derivedState m (initialState (ArgFunction echo))))
         everyMethod
  /\ (let s := deriveAll everyMethod 0 s0 in
      length (Heap.callables s) = 13
      /\ Heap.invoke s 0 x emptyWorld = (Ok x, emptyWorld)
      /\ Heap.invoke s 1 x emptyWorld = (Ok (Plain (DNum 42)), emptyWorld)
      /\ Heap.invoke s 2 x emptyWorld
         = (Ok (obj [("a", DNum 5); ("b", DNum 0)]), emptyWorld)
      /\ Heap.invoke s 4 x emptyWorld
         = (Ok (obj [("a", DNum 5); ("b", DNum 100)]), emptyWorld)).
Proof.
  intros s0 x. split.
  - unfold everyMethod.
    repeat (apply Forall_cons; split;
            [ match goal with
              | |- exists s', Heap.chainCall ?m _ _ = _ /\ _ =>
                  destruct (chain_methods_non_destructive m s0 0
                              (initialState (ArgFunction echo)) eq_refl)
                    as (s' & Hcall & _ & _ & _ & _ & Hnew & _ & Hinv & _);
                  exists s'; split; [exact Hcall|]; split; [|exact Hnew];
                  rewrite (Hinv 0 _ x emptyWorld eq_refl); reflexivity
              end
            | ]).
    apply Forall_nil. exact I.
  - vm_compute. repeat split; reflexivity.
Defined.

(** C1, as stated, fails on the addon-style blueprint: its [implement]
    returns the receiver itself and replaces the implementation the
    receiver runs. *)
Lemma legacy_implement_replaces_in_place :
  let h0 := snd (Legacy.blueprint noOptions []) in
  exists h1,
    Legacy.implement 0 constOne h0 = Some (0, h1)
    /\ Legacy.call h0 0 (obj []) emptyWorld
       = (Throw (DError "Not Implemented"), emptyWorld)
    /\ Legacy.call h1 0 (obj []) emptyWorld
       = (Ok (Plain (DNum 1)), emptyWorld).
Proof. eexists. repeat split. Qed.

(* ===================================================================== *)
(** ** Addons *)
(* ===================================================================== *)

Lemma readOnly_source (core : gmap string field) (extended : field) :
  Legacy.readOnly core = false ->
  Legacy.readOnly (core ∪ {[ "addons" := extended ]}) = false.
Proof.
  unfold Legacy.readOnly, Legacy.unassignable. simpl.
  rewrite !lookup_union, !lookup_singleton_ne by discriminate.
  destruct (core !! "name"), (core !! "length"), (core !! "caller"),
    (core !! "arguments"), (core !! "__proto__"); simpl; congruence.
Qed.

(** C9, as the code has it.  In the addon-style blueprint, [addon]
    assigns onto the receiver itself and returns it: the receiver's own
    properties now hold every field of the bundle (the bundle wins over
    the base interface and over earlier bundles), the bundle is appended
    to [addons] unless it carries an [addons] field of its own, and the
    other properties and the implementation stay.  In the interface
    sketch, [addon] returns a fresh plain object (not a function) holding
    the receiver's properties, [_addons] set to [[[], bundle]] and the
    bundle's fields on top; the receiver is untouched. *)
Theorem addon_merges_fields :
  (forall (h : list Legacy.Blueprint) self b l a,
     h !! self = Some b ->
     Legacy.fields b !! "addons" = Some (FArr l) ->
     Legacy.readOnly (Legacy.core a) = false ->
     exists b',
       Legacy.addon self a h = Some (self, <[self := b']> h)
       /\ <[self := b']> h !! self = Some b'
       /\ (forall k v, Legacy.core a !! k = Some v ->
                       Legacy.fields b' !! k = Some v)
       /\ (Legacy.core a !! "addons" = None ->
           Legacy.fields b' !! "addons" = Some (FArr (l ++ [Legacy.bundle a])))
       /\ (forall k, Legacy.core a !! k = None -> k <> "addons" ->
                     Legacy.fields b' !! k = Legacy.fields b !! k)
       /\ Legacy.implementation b' = Legacy.implementation b
       /\ (forall other, other <> self -> <[self := b']> h !! other = h !! other))
  /\ (forall (h : list Sketch.Obj) this o a,
        h !! this = Some o ->
        exists o',
          Sketch.addon this a h = Some (length h, h ++ [o'])
          /\ length h <> this
          /\ (h ++ [o']) !! this = Some o
          /\ (h ++ [o']) !! length h = Some o'
          /\ Sketch.isFunction o' = false
          /\ (forall k v, spreadFields (Sketch.core a) !! k = Some v ->
                          Sketch.fields o' !! k = Some v)
          /\ (spreadFields (Sketch.core a) !! "_addons" = None ->
              Sketch.fields o' !! "_addons"
              = Some (FArr [FArr []; Sketch.bundle a]))
          /\ (forall k, spreadFields (Sketch.core a) !! k = None ->
                        k <> "_addons" ->
                        Sketch.fields o' !! k = Sketch.fields o !! k)).
Proof.
  split.
  - intros h self b l a Hself Haddons Hro.
    pose proof (lookup_lt_Some _ _ _ Hself) as Hlt.
    eexists. split; [|split; [|split; [|split; [|split; [|split]]]]].
    + unfold Legacy.addon. rewrite Hself, Haddons.
      rewrite readOnly_source by exact Hro. reflexivity.
    + apply list_lookup_insert_eq, Hlt.
    + intros k v Hk. simpl. apply lookup_union_Some_l, lookup_union_Some_l, Hk.
    + intros Hk. simpl. rewrite <- (assoc_L (∪)).
      rewrite lookup_union_r by exact Hk.
      apply lookup_union_Some_l, lookup_singleton_eq.
    + intros k Hk Hne. simpl. rewrite <- (assoc_L (∪)).
      rewrite lookup_union_r by exact Hk.
      apply lookup_union_r, lookup_singleton_ne. congruence.
    + reflexivity.
    + intros other Hne. apply list_lookup_insert_ne. congruence.
  - intros h this o a Hthis.
    pose proof (lookup_lt_Some _ _ _ Hthis) as Hlt.
    eexists. split; [|split; [|split; [|split; [|split; [|split; [|split]]]]]].
    + unfold Sketch.addon. rewrite Hthis. reflexivity.
    + lia.
    + rewrite lookup_app_l by assumption. exact Hthis.
    + rewrite lookup_app_r by lia. rewrite Nat.sub_diag. reflexivity.
    + reflexivity.
    + intros k v Hk. simpl. apply lookup_union_Some_l, Hk.
    + intros Hk. simpl. rewrite lookup_union_r by exact Hk.
      apply lookup_union_Some_l, lookup_singleton_eq.
    + intros k Hk Hne. simpl. rewrite lookup_union_r by exact Hk.
      apply lookup_union_r, lookup_singleton_ne. congruence.
Qed.

Lemma addon_merges_fields_witness :
  let h0 := snd (Legacy.blueprint noOptions []) in
  let s0 := snd (Sketch.core_ []) in
  (exists b', Legacy.addon 0 requestAddon h0 = Some (0, [b'])
              /\ Legacy.fields b' !! "request" = Some (FFun "requestAddon.request"))
  /\ (exists o o', Sketch.addon 0 soonAddon s0 = Some (1, [o; o'])
                   /\ Sketch.fields o !! "some" = None
                   /\ Sketch.fields o' !! "some" = Some (FFun "soonAddon.some")).
Proof.
  intros h0 s0.
  destruct addon_merges_fields as [Hlegacy Hsketch]. split.
  - destruct (Hlegacy h0 0 _ [] requestAddon eq_refl eq_refl eq_refl)
      as (b' & Hcall & _ & Hwins & _).
    exists b'. split; [exact Hcall|]. apply Hwins. reflexivity.
  - destruct (Hsketch s0 0 _ soonAddon eq_refl)
      as (o' & Hcall & _ & _ & _ & _ & Hwins & _).
    eexists _, o'. split; [exact Hcall|]. split; [reflexivity|].
    apply Hwins. reflexivity.
Defined.

(** C9, as stated, fails on the addon-style blueprint: the value
    returned by [addon] is the receiver (position [0]), and the receiver
    now has the bundle's [request] field, which it did not have before;
    a bundle carrying [implement] replaces the base method on the
    receiver. *)
Lemma legacy_addon_changes_receiver :
  let h0 := snd (Legacy.blueprint noOptions []) in
  exists b0 b1 b2,
    h0 = [b0]
    /\ Legacy.addon 0 requestAddon h0 = Some (0, [b1])
    /\ Legacy.fields b0 !! "request" = None
    /\ Legacy.fields b1 !! "request" = Some (FFun "requestAddon.request")
    /\ Legacy.fields b1 !! "addons" = Some (FArr [Legacy.bundle requestAddon])
    /\ Legacy.addon 0 overridingBundle [b1] = Some (0, [b2])
    /\ Legacy.fields b1 !! "implement" = Some (FFun "implement")
    /\ Legacy.fields b2 !! "implement" = Some (FFun "overridingAddon.implement").
Proof. do 3 eexists. repeat split. Qed.

(* ===================================================================== *)
(** ** More of the engine *)
(* ===================================================================== *)

Lemma callableBlueprint_beforeCore currentState props w :
  callableBlueprint currentState props w =
  bind (beforeCore currentState props) (runCore currentState) w.
Proof.
  unfold callableBlueprint, beforeCore. rewrite !bind_assoc.
  apply bind_ext. intros vp w1. rewrite bind_assoc. reflexivity.
Qed.

(** With nothing configured on the input side, the input stages only
    turn the caller's input into a record. *)
Lemma bare_inputStages currentState props w :
  defaultProviders currentState = [] ->
  enforcedValues currentState = ∅ ->
  inputMappers currentState = [] ->
  propsValidationActive currentState = false ->
  inputStages currentState props w = (Ok (Plain (DObj (callerRecord props))), w).
Proof.
  intros Hp He Hm Hv. unfold inputStages, mappingStages.
  unfold bind at 1 2. rewrite applyDefaults_merge, Hp. simpl.
  unfold applyEnforced, spread2. rewrite Hm, He. simpl.
  rewrite (right_id_L ∅ (∪)), (left_id_L ∅ (∪)).
  apply validatePropsStage_inactive, Hv.
Qed.

(** With nothing configured on the output side and no flag set, the
    blueprint returns what its core logic returns. *)
Lemma bare_runCore currentState impl validatedProps w :
  implementation currentState = Some impl ->
  outputMappers currentState = [] ->
  afterHooks currentState = [] ->
  validateResults currentState = false ->
  isAsync currentState = false ->
  isVoid currentState = false ->
  runCore currentState validatedProps w = impl validatedProps w.
Proof.
  intros Hi Ho Ha Hv Hasync Hvoid. unfold runCore. rewrite Hi, Hasync. simpl.
  assert (Hfin : forall r w', processResultAndFinalize currentState validatedProps r w'
                              = ret r w').
  { intros r w'. unfold processResultAndFinalize, validateResultStage.
    rewrite Ho, Ha, Hv, Hvoid. reflexivity. }
  unfold bind. destruct (impl validatedProps w) as [[r|e] w1]; [|reflexivity].
  destruct (isThenable r) eqn:Hr.
  - rewrite (then_ext _ _ ret) by apply Hfin. apply then_ret, Hr.
  - apply Hfin.
Qed.

Lemma members_record o keys w :
  members (Plain (DObj o)) keys w = (Ok (map (ownOrInherited o) keys), w).
Proof.
  induction keys as [|key rest IH]; [reflexivity|].
  simpl. unfold bind. simpl. rewrite IH. reflexivity.
Qed.

(** [from(fn, keys)(props)] calls [fn] with one argument per key, in the
    order of [keys]: the value the caller's record holds under that key,
    [undefined] when the key is missing (the inherited member for a name
    of [Object.prototype]); it returns or throws what [fn] does.  The
    record is the caller's object, [{}] for [undefined], and
    [{ props: x }] for a primitive [x]. *)
Theorem from_passes_keys_in_order fn_ keys props w :
  callableBlueprint (from fn_ keys) props w
  = fn_ (map (ownOrInherited (callerRecord props)) keys) w.
Proof.
  rewrite callableBlueprint_beforeCore. unfold beforeCore.
  rewrite bind_assoc. unfold bind at 1.
  rewrite bare_inputStages by reflexivity.
  simpl runBeforeHooks. unfold bind at 1, ret at 1. unfold bind at 1, ret at 1.
  erewrite bare_runCore by reflexivity.
  unfold bind. rewrite members_record. reflexivity.
Qed.

Lemma void_finalize currentState validatedProps r w :
  processResultAndFinalize (Chain.toVoid currentState) validatedProps r w =
  match processResultAndFinalize currentState validatedProps r w with
  | (Ok _, w') => (Ok (Plain DUndefined), w')
  | (Throw e, w') => (Throw e, w')
  end.
Proof.
  unfold processResultAndFinalize. simpl. unfold bind.
  destruct (runOutputMappers _ r validatedProps w) as [[cr|e] w1]; [|reflexivity].
  change (validateResultStage (Chain.toVoid currentState) cr)
    with (validateResultStage currentState cr).
  destruct (validateResultStage currentState cr w1) as [[vr|e] w2]; [|reflexivity].
  destruct (runAfterHooks _ vr validatedProps w2) as [[[]|e] w3]; [|reflexivity].
  destruct (isVoid currentState); reflexivity.
Qed.

(** [toVoid] changes the returned value and nothing else: the same
    stages run with the same effects, a synchronous failure is the same
    failure, and what comes back is [undefined], or, when the core logic
    gave a promise, a promise that is pending, rejected, or fulfilled
    with [undefined]. *)
Theorem toVoid_discards_only_the_value currentState props w :
  snd (callableBlueprint (Chain.toVoid currentState) props w)
    = snd (callableBlueprint currentState props w)
  /\ (forall e,
        fst (callableBlueprint (Chain.toVoid currentState) props w) = Throw e
        <-> fst (callableBlueprint currentState props w) = Throw e)
  /\ (forall r,
        fst (callableBlueprint (Chain.toVoid currentState) props w) = Ok r ->
        r = Plain DUndefined
        \/ r = Deferred Pending
        \/ (exists e, r = Deferred (Rejected e))
        \/ r = Deferred (Fulfilled DUndefined)).
Proof.
  rewrite !callableBlueprint_beforeCore.
  change (beforeCore (Chain.toVoid currentState) props)
    with (beforeCore currentState props).
  unfold bind.
  destruct (beforeCore currentState props w) as [[vp|e0] w1];
    [|simpl; repeat split; intros; congruence].
  unfold runCore.
  change (implementation (Chain.toVoid currentState))
    with (implementation currentState).
  change (isAsync (Chain.toVoid currentState)) with (isAsync currentState).
  change (notImplementedMessage (Chain.toVoid currentState))
    with (notImplementedMessage currentState).
  destruct (implementation currentState) as [impl|];
    [|simpl; repeat split; intros; congruence].
  unfold bind. destruct (impl vp w1) as [[result|e0] w2];
    [|simpl; repeat split; intros; congruence].
  set (result' := if isAsync currentState && negb (isThenable result)
                  then promiseResolve result else result).
  destruct (isThenable result') eqn:Hth.
  - unfold then_.
    destruct (promiseResolve result') as [d|[|d|e0]] eqn:Hres.
    + destruct result'; discriminate.
    + simpl. repeat split; intros; try congruence.
      injection H as <-. auto.
    + rewrite void_finalize.
      destruct (processResultAndFinalize currentState vp (Plain d) w2)
        as [[r|e0] w3]; simpl; repeat split; intros; try congruence.
      * injection H as <-. auto.
      * injection H as <-. eauto.
    + simpl. repeat split; intros; try congruence.
      injection H as <-. eauto.
  - rewrite void_finalize.
    destruct (processResultAndFinalize currentState vp result' w2)
      as [[r|e0] w3]; simpl; repeat split; intros; try congruence.
    injection H as <-. auto.
Qed.

(** A blueprint made asynchronous fails in two ways: an error thrown by
    the core logic itself is thrown synchronously to the caller, while
    an error raised after the core logic returned (output mapper, result
    validation, after hook) comes back as a rejected promise; on success
    the returned promise is the finalised result. *)
Theorem toAsync_failure_modes currentState impl props w validatedProps w1 :
  isAsync currentState = true ->
  implementation currentState = Some impl ->
  beforeCore currentState props w = (Ok validatedProps, w1) ->
  (forall e w2,
     impl validatedProps w1 = (Throw e, w2) ->
     callableBlueprint currentState props w = (Throw e, w2))
  /\ (forall d w2,
        impl validatedProps w1 = (Ok (Plain d), w2) ->
        callableBlueprint currentState props w =
        match processResultAndFinalize currentState validatedProps (Plain d) w2 with
        | (Ok r, w3) => (Ok (promiseResolve r), w3)
        | (Throw e, w3) => (Ok (Deferred (Rejected e)), w3)
        end).
Proof.
  intros Hasync Himpl Hbefore. split.
  - intros e w2 Hcore. rewrite callableBlueprint_beforeCore.
    unfold bind. rewrite Hbefore. unfold runCore. rewrite Himpl.
    unfold bind. rewrite Hcore. reflexivity.
  - intros d w2 Hcore. rewrite callableBlueprint_beforeCore.
    unfold bind. rewrite Hbefore. unfold runCore. rewrite Himpl.
    unfold bind. rewrite Hcore, Hasync. reflexivity.
Qed.

Lemma toAsync_failure_modes_witness :
  callableBlueprint (Chain.toAsync (initialState (ArgFunction failingCore)))
    (obj []) emptyWorld
  = (Throw (DError "core failed"), emptyWorld)
  /\ callableBlueprint
       (Chain.toAsync (Chain.before (Chain.zResult (initialState (ArgFunction constOne))
                                       rejectAll) countingHook))
       (obj []) emptyWorld
     = (Ok (Deferred (Rejected (DError "invalid result"))),
        World {[ "hooks" := DNum 1 ]}
          [("Blueprint result validation error.", Plain (DNum 1))]).
Proof.
  split.
  - apply (toAsync_failure_modes
             (Chain.toAsync (initialState (ArgFunction failingCore))) failingCore
             (obj []) emptyWorld (obj []) emptyWorld); reflexivity.
  - pose proof (toAsync_failure_modes
             (Chain.toAsync (Chain.before (Chain.zResult
                (initialState (ArgFunction constOne)) rejectAll) countingHook))
             constOne (obj []) emptyWorld (obj [])
             (World {[ "hooks" := DNum 1 ]} [])
             eq_refl eq_refl eq_refl) as [_ H].
    rewrite (H (DNum 1) _ eq_refl). reflexivity.
Defined.

(** Adding after hooks changes the after-hook list and nothing else. *)
Lemma afters_frame hooks : forall currentState,
  implementation (afters currentState hooks) = implementation currentState
  /\ isAsync (afters currentState hooks) = isAsync currentState
  /\ isVoid (afters currentState hooks) = isVoid currentState
  /\ outputMappers (afters currentState hooks) = outputMappers currentState
  /\ validateResults (afters currentState hooks) = validateResults currentState
  /\ resultSchema (afters currentState hooks) = resultSchema currentState
  /\ afterHooks (afters currentState hooks) = afterHooks currentState ++ hooks
  /\ (forall props w, beforeCore (afters currentState hooks) props w
                      = beforeCore currentState props w).
Proof.
  induction hooks as [|h hs IH]; intros st.
  - simpl. rewrite app_nil_r. repeat split; reflexivity.
  - destruct (IH (Chain.after st h)) as (H1 & H2 & H3 & H4 & H5 & H6 & H7 & H8).
    unfold afters in *. simpl.
    rewrite H1, H2, H3, H4, H5, H6, H7. simpl. rewrite <- app_assoc.
    repeat split; try reflexivity.
    intros props w. rewrite H8. reflexivity.
Qed.

(** When the enabled result validator rejects the mapped result of a
    synchronous core, the failure is logged and thrown; the after hooks
    do not run and the void flag plays no part: the outcome is the same
    with the void flag set and any further after hooks added. *)
Theorem result_validation_failure_skips_after_hooks
    currentState parse impl props w0 validatedProps w1 d w2 currentResult w3 e w4 :
  validateResults currentState = true ->
  resultSchema currentState = Some parse ->
  implementation currentState = Some impl ->
  isAsync currentState = false ->
  beforeCore currentState props w0 = (Ok validatedProps, w1) ->
  impl validatedProps w1 = (Ok (Plain d), w2) ->
  runOutputMappers (outputMappers currentState) (Plain d) validatedProps w2
    = (Ok currentResult, w3) ->
  parse currentResult w3 = (Throw e, w4) ->
  let failed :=
    (@Throw value e,
     World (vars w4)
       (console w4 ++ [("Blueprint result validation error.", currentResult)])) in
  callableBlueprint currentState props w0 = failed
  /\ (forall hooks,
        callableBlueprint (afters (Chain.toVoid currentState) hooks) props w0
        = failed).
Proof.
  intros Hflag Hschema Himpl Hasync Hbefore Hcore Hout Hparse failed.
  assert (Hfail : forall st,
    validateResults st = true -> resultSchema st = Some parse ->
    outputMappers st = outputMappers currentState ->
    implementation st = Some impl -> isAsync st = false ->
    (forall p w, beforeCore st p w = beforeCore currentState p w) ->
    callableBlueprint st props w0 = failed).
  { intros st Hf Hs Ho Hi Ha Hb. rewrite callableBlueprint_beforeCore.
    unfold bind. rewrite Hb, Hbefore. unfold runCore. rewrite Hi.
    unfold bind. rewrite Hcore, Ha. simpl.
    unfold processResultAndFinalize. rewrite Ho.
    unfold bind at 1. rewrite Hout.
    unfold bind at 1. unfold validateResultStage. rewrite Hf, Hs.
    unfold try_catch. rewrite Hparse. reflexivity. }
  split.
  - apply Hfail; auto.
  - intros hooks.
    destruct (afters_frame hooks (Chain.toVoid currentState))
      as (H1 & H2 & _ & H4 & H5 & H6 & _ & H8).
    apply Hfail.
    + rewrite H5. exact Hflag.
    + rewrite H6. exact Hschema.
    + rewrite H4. reflexivity.
    + rewrite H1. exact Himpl.
    + rewrite H2. exact Hasync.
    + intros p w. rewrite H8. reflexivity.
Qed.

Lemma result_validation_failure_skips_after_hooks_witness :
  callableBlueprint
    (Chain.after (Chain.zResult (initialState (ArgFunction constOne)) rejectAll)
       countingAfter)
    (obj []) emptyWorld
  = (Throw (DError "invalid result"),
     World ∅ [("Blueprint result validation error.", Plain (DNum 1))]).
Proof.
  apply (result_validation_failure_skips_after_hooks
           (Chain.after (Chain.zResult (initialState (ArgFunction constOne)) rejectAll)
              countingAfter)
           rejectAll constOne (obj []) emptyWorld (obj []) emptyWorld
           (DNum 1) emptyWorld (Plain (DNum 1)) emptyWorld
           (DError "invalid result") emptyWorld); reflexivity.
Defined.

(** Adding before hooks changes the before-hook list and nothing else. *)
Lemma befores_frame hooks : forall currentState,
  beforeHooks (befores currentState hooks) = beforeHooks currentState ++ hooks
  /\ (forall props w, inputStages (befores currentState hooks) props w
                      = inputStages currentState props w)
  /\ (forall vp w, runCore (befores currentState hooks) vp w
                   = runCore currentState vp w).
Proof.
  induction hooks as [|h hs IH]; intros st.
  - simpl. rewrite app_nil_r. repeat split; reflexivity.
  - destruct (IH (Chain.before st h)) as (H1 & H2 & H3).
    unfold befores in *. simpl. rewrite H1. simpl. rewrite <- app_assoc.
    repeat split; try reflexivity.
    + intros props w. rewrite H2. reflexivity.
    + intros vp w. rewrite H3. reflexivity.
Qed.

Lemma runBeforeHooks_app hs1 : forall hs2 vp w,
  runBeforeHooks (hs1 ++ hs2) vp w =
  bind (runBeforeHooks hs1 vp) (fun _ => runBeforeHooks hs2 vp) w.
Proof.
  induction hs1 as [|h hs1 IH]; intros hs2 vp w.
  - reflexivity.
  - simpl. rewrite bind_assoc. apply bind_ext. intros q w'. apply IH.
Qed.

Lemma runAfterHooks_app hs1 : forall hs2 vr vp w,
  runAfterHooks (hs1 ++ hs2) vr vp w =
  bind (runAfterHooks hs1 vr vp) (fun _ => runAfterHooks hs2 vr vp) w.
Proof.
  induction hs1 as [|h hs1 IH]; intros hs2 vr vp w.
  - reflexivity.
  - simpl. rewrite bind_assoc. apply bind_ext. intros q w'. apply IH.
Qed.

(** A before hook that throws stops the invocation there: the hooks
    added after it and the core logic do not run, whatever they are. *)
Theorem before_hook_failure_aborts
    currentState props w validatedProps w1 earlier hook later w2 e w3 :
  inputStages currentState props w = (Ok validatedProps, w1) ->
  beforeHooks currentState = earlier ++ hook :: later ->
  runBeforeHooks earlier validatedProps w1 = (Ok tt, w2) ->
  hook validatedProps w2 = (Throw e, w3) ->
  callableBlueprint currentState props w = (Throw e, w3)
  /\ (forall newImpl further,
        callableBlueprint (befores (Chain.implement currentState newImpl) further)
          props w = (Throw e, w3)).
Proof.
  intros Hin Hhooks Hearlier Hhook.
  assert (Hrun : forall rest,
    runBeforeHooks (earlier ++ hook :: rest) validatedProps w1 = (Throw e, w3)).
  { intros rest. rewrite runBeforeHooks_app. unfold bind. rewrite Hearlier.
    simpl. unfold bind. rewrite Hhook. reflexivity. }
  assert (Hfail : forall st,
    (forall p w', inputStages st p w' = inputStages currentState p w') ->
    (exists rest, beforeHooks st = earlier ++ hook :: rest) ->
    callableBlueprint st props w = (Throw e, w3)).
  { intros st Hi [rest Hb]. unfold callableBlueprint, bind.
    rewrite Hi, Hin, Hb, Hrun. reflexivity. }
  split.
  - apply Hfail; eauto.
  - intros newImpl further.
    destruct (befores_frame further (Chain.implement currentState newImpl))
      as (H1 & H2 & _).
    apply Hfail.
    + intros p w'. rewrite H2. reflexivity.
    + exists (later ++ further). rewrite H1. simpl. rewrite Hhooks.
      rewrite <- app_assoc. reflexivity.
Qed.

Lemma before_hook_failure_aborts_witness :
  callableBlueprint
    (Chain.before (Chain.before (Chain.before (initialState (ArgFunction countingCore))
                                   countingHook) failingHook) countingHook)
    (obj []) emptyWorld
  = (Throw (DError "hook failed"), World {[ "hooks" := DNum 1 ]} []).
Proof.
  apply (before_hook_failure_aborts
           (Chain.before (Chain.before (Chain.before
              (initialState (ArgFunction countingCore))
              countingHook) failingHook) countingHook)
           (obj []) emptyWorld (obj []) emptyWorld
           [countingHook] failingHook [countingHook]
           (World {[ "hooks" := DNum 1 ]} []) (DError "hook failed")
           (World {[ "hooks" := DNum 1 ]} [])); reflexivity.
Defined.

(** Before and after hooks run in the order they were added, every
    before hook on the same validated props and every after hook on the
    same validated result and props; what a hook returns is dropped. *)
Theorem hooks_run_in_addition_order :
  (forall currentState hs,
     beforeHooks (befores currentState hs) = beforeHooks currentState ++ hs)
  /\ (forall currentState hs,
        afterHooks (afters currentState hs) = afterHooks currentState ++ hs)
  /\ (forall hs h validatedProps w,
        runBeforeHooks (hs ++ [h]) validatedProps w =
        bind (runBeforeHooks hs validatedProps)
             (fun _ => bind (h validatedProps) (fun _ => ret tt)) w)
  /\ (forall hs h validatedResult validatedProps w,
        runAfterHooks (hs ++ [h]) validatedResult validatedProps w =
        bind (runAfterHooks hs validatedResult validatedProps)
             (fun _ => bind (h validatedResult validatedProps) (fun _ => ret tt)) w).
Proof.
  split; [|split; [|split]].
  - intros st hs. apply befores_frame.
  - intros st hs. apply afters_frame.
  - intros hs h vp w. apply runBeforeHooks_app.
  - intros hs h vr vp w. apply runAfterHooks_app.
Qed.

(** Successive [enforce] calls accumulate: a key enforced again takes
    the later value, a key enforced only earlier keeps its value, and
    enforcing the same values twice gives the same state as once. *)
Theorem enforce_later_call_wins currentState first second :
  (forall k,
     enforcedValues (Chain.enforce (Chain.enforce currentState first) second) !! k
     = match spread second !! k with
       | Some v => Some v
       | None => match spread first !! k with
                 | Some v => Some v
                 | None => enforcedValues currentState !! k
                 end
       end)
  /\ Chain.enforce (Chain.enforce currentState first) first
     = Chain.enforce currentState first.
Proof.
  split.
  - intros k. rewrite !enforce_accumulates. reflexivity.
  - unfold Chain.enforce. simpl. f_equal. unfold spread2.
    rewrite (assoc_L (∪)), (idemp_L (∪)). reflexivity.
Qed.

(** With no input mappers, the record that leaves the enforcement step
    and is handed to input validation is decided key by key: the
    enforced value
    if the key is enforced, else the caller's value if the caller gave
    one, else the resolved default. *)
Theorem props_precedence currentState props w mappedProps w1 :
  inputMappers currentState = [] ->
  mappingStages currentState props w = (Ok mappedProps, w1) ->
  exists ds,
    providerOutputs (defaultProviders currentState)
      (initialProps currentState props) w = (Ok ds, w1)
    /\ exists m, mappedProps = Plain (DObj m)
    /\ forall k,
         m !! k = match enforcedValues currentState !! k with
                  | Some v => Some v
                  | None => match callerRecord props !! k with
                            | Some v => Some v
                            | None => unionOutputs ∅ ds !! k
                            end
                  end.
Proof.
  intros Hm. unfold mappingStages. rewrite Hm. unfold bind at 1.
  rewrite applyDefaults_merge. unfold bind at 1.
  rewrite resolveDefaults_outputs. unfold bind.
  destruct (providerOutputs _ _ w) as [[ds|e] w']; [|discriminate].
  simpl. intros [= <- <-]. exists ds. split; [reflexivity|].
  eexists. split; [reflexivity|]. intros k. unfold spread2. cbn [spread].
  rewrite !lookup_union.
  destruct (enforcedValues currentState !! k), (callerRecord props !! k),
    (unionOutputs ∅ ds !! k); reflexivity.
Qed.

Lemma props_precedence_witness :
  exists m,
    mappingStages
      (Chain.enforce
         (Chain.defaults (initialState ArgNone)
            (StaticDefaults (obj [("a", DNum 1); ("b", DNum 2); ("c", DNum 3)])))
         (obj [("a", DNum 100)]))
      (obj [("a", DNum 10); ("b", DNum 20)]) emptyWorld
    = (Ok (Plain (DObj m)), emptyWorld)
    /\ m !! "a" = Some (DNum 100) /\ m !! "b" = Some (DNum 20)
    /\ m !! "c" = Some (DNum 3) /\ m !! "d" = None.
Proof.
  destruct (props_precedence
              (Chain.enforce
                 (Chain.defaults (initialState ArgNone)
                    (StaticDefaults (obj [("a", DNum 1); ("b", DNum 2); ("c", DNum 3)])))
                 (obj [("a", DNum 100)]))
              (obj [("a", DNum 10); ("b", DNum 20)]) emptyWorld
              (obj [("a", DNum 100); ("b", DNum 20); ("c", DNum 3)]) emptyWorld
              eq_refl)
    as (ds & Hds & m & Hm & Hk); [vm_compute; reflexivity|].
  exists m. split; [rewrite <- Hm; vm_compute; reflexivity|].
  injection Hds as <-.
  rewrite !Hk. repeat split; vm_compute; reflexivity.
Defined.

Lemma indexed_lookup l : forall start i,
  indexed start l !! pretty (start + i) = l !! i.
Proof.
  induction l as [|x rest IH]; intros start i.
  - reflexivity.
  - simpl. destruct i as [|i].
    + rewrite Nat.add_0_r. apply lookup_insert_eq.
    + rewrite lookup_insert_ne.
      * replace (start + S i) with (S start + i) by lia. apply IH.
      * intros H. apply (inj pretty) in H. lia.
Qed.

Lemma indexed_lookup_below l : forall start n,
  n < start -> indexed start l !! pretty n = None.
Proof.
  induction l as [|x rest IH]; intros start n Hn.
  - reflexivity.
  - simpl. rewrite lookup_insert_ne.
    + apply IH. lia.
    + intros H. apply (inj pretty) in H. lia.
Qed.

Lemma indexed_keys l : forall start k d,
  indexed start l !! k = Some d ->
  exists i, k = pretty (start + i) /\ l !! i = Some d.
Proof.
  induction l as [|x rest IH]; intros start k d Hk.
  - discriminate.
  - simpl in Hk. destruct (decide (pretty start = k)) as [<-|Hne].
    + rewrite lookup_insert_eq in Hk. injection Hk as <-.
      exists 0. rewrite Nat.add_0_r. split; reflexivity.
    + rewrite lookup_insert_ne in Hk by exact Hne.
      destruct (IH _ _ _ Hk) as (i & -> & Hi).
      exists (S i). split; [f_equal; lia | exact Hi].
Qed.

(** Inputs that are objects but not plain records lose their shape: an
    array reaches the core logic as a record keyed by its indices and by
    nothing else, a promise or an [Error] as the empty record, and
    [undefined] as the empty record too; [null] is wrapped as
    [{ props: null }]. *)
Theorem non_record_inputs_become_records currentState w :
  defaultProviders currentState = [] ->
  enforcedValues currentState = ∅ ->
  inputMappers currentState = [] ->
  propsValidationActive currentState = false ->
  (forall l, exists m,
     inputStages currentState (Plain (DArr l)) w = (Ok (Plain (DObj m)), w)
     /\ (forall i, m !! pretty i = l !! i)
     /\ (forall k d, m !! k = Some d -> exists i, k = pretty i /\ l !! i = Some d))
  /\ (forall p, inputStages currentState (Deferred p) w = (Ok (Plain (DObj ∅)), w))
  /\ (forall msg,
        inputStages currentState (Plain (DError msg)) w = (Ok (Plain (DObj ∅)), w))
  /\ inputStages currentState (Plain DUndefined) w = (Ok (Plain (DObj ∅)), w)
  /\ inputStages currentState (Plain DNull) w
     = (Ok (Plain (DObj {[ "props" := DNull ]})), w).
Proof.
  intros Hp He Hm Hv.
  split; [|repeat split; intros; rewrite bare_inputStages by assumption; reflexivity].
  intros l. exists (indexed 0 l). split; [|split].
  - rewrite bare_inputStages by assumption. reflexivity.
  - intros i. apply (indexed_lookup l 0 i).
  - intros k d Hk. apply (indexed_keys l 0 k d Hk).
Qed.

Lemma non_record_inputs_become_records_witness :
  callableBlueprint (initialState (ArgFunction echo))
    (Plain (DArr [DStr "x"; DStr "y"])) emptyWorld
  = (Ok (obj [("0", DStr "x"); ("1", DStr "y")]), emptyWorld).
Proof.
  destruct (non_record_inputs_become_records (initialState (ArgFunction echo))
              emptyWorld eq_refl eq_refl eq_refl eq_refl) as [Harr _].
  destruct (Harr [DStr "x"; DStr "y"]) as (m & Hin & _ & _).
  unfold callableBlueprint, bind. rewrite Hin.
  injection Hin as <-. reflexivity.
Defined.

Lemma string_append_assoc (a b c : string) : (a +:+ b) +:+ c = a +:+ (b +:+ c).
Proof.
  induction a as [|ch a IH]; [reflexivity|].
  change (String ch ((a +:+ b) +:+ c) = String ch (a +:+ (b +:+ c))).
  rewrite IH. reflexivity.
Qed.

(** An unimplemented blueprint created with a non-empty key names the
    key, in quotes, in the error it throws; an empty key is treated as no
    key. *)
Theorem unimplemented_error_names_key k props w :
  callableBlueprint (keyed k) props w =
  (Throw (DError (if String.eqb k "" then "Blueprint has not been implemented."
                  else "Blueprint '" +:+ k +:+ "' has not been implemented.")),
   w).
Proof.
  unfold callableBlueprint. unfold bind at 1.
  rewrite bare_inputStages by reflexivity.
  unfold bind, runCore, notImplementedMessage. simpl.
  destruct (String.eqb k ""); [reflexivity|].
  change (negb false) with true. cbv iota. unfold throw. do 3 f_equal.
  exact (f_equal (fun s => "Blueprint '" +:+ s)
           (string_append_assoc k "' " "has not been implemented.")).
Qed.

(* ===================================================================== *)
(** ** More of the addon-style blueprint and of the sketch *)
(* ===================================================================== *)

(** On the addon-style blueprint whose [implement] and [addon]
    properties are still the factory's, and for a bundle that replaces
    neither of them (so that the second call of either order runs the
    factory's method), [implement] and [addon] act on different parts of
    the receiver and commute: either order leaves the
    receiver with the new implementation, the bundle's fields and the
    extended [addons] list, and every other blueprint as it was. *)
Theorem legacy_implement_addon_commute (h : list Legacy.Blueprint) self b l a f :
  h !! self = Some b ->
  Legacy.fields b !! "addons" = Some (FArr l) ->
  Legacy.fields b !! "implement" = Some (FFun "implement") ->
  Legacy.fields b !! "addon" = Some (FFun "addon") ->
  Legacy.core a !! "implement" = None ->
  Legacy.core a !! "addon" = None ->
  Legacy.readOnly (Legacy.core a) = false ->
  let result :=
    Some (self,
          <[self := {| Legacy.implementation := f;
                       Legacy.fields :=
                         (Legacy.core a ∪ {[ "addons" := FArr (l ++ [Legacy.bundle a]) ]})
                         ∪ Legacy.fields b |}]> h) in
  (Legacy.implement self f h ≫= fun rh => Legacy.addon rh.1 a rh.2) = result
  /\ (Legacy.addon self a h ≫= fun rh => Legacy.implement rh.1 f rh.2) = result.
Proof.
  intros Hself Haddons _ _ _ _ Hro result.
  pose proof (lookup_lt_Some _ _ _ Hself) as Hlt.
  split.
  - unfold Legacy.implement. rewrite Hself. simpl.
    unfold Legacy.addon. rewrite list_lookup_insert_eq by exact Hlt. simpl.
    rewrite Haddons, readOnly_source by exact Hro.
    rewrite list_insert_insert_eq. reflexivity.
  - unfold Legacy.addon. rewrite Hself, Haddons, readOnly_source by exact Hro.
    simpl. unfold Legacy.implement.
    rewrite list_lookup_insert_eq by exact Hlt. simpl.
    rewrite list_insert_insert_eq. reflexivity.
Qed.

Lemma legacy_implement_addon_commute_witness :
  let h0 := snd (Legacy.blueprint noOptions []) in
  exists b,
    (Legacy.implement 0 constOne h0 ≫= fun rh => Legacy.addon rh.1 requestAddon rh.2)
      = Some (0, [b])
    /\ (Legacy.addon 0 requestAddon h0 ≫= fun rh => Legacy.implement rh.1 constOne rh.2)
      = Some (0, [b])
    /\ Legacy.call [b] 0 (obj []) emptyWorld = (Ok (Plain (DNum 1)), emptyWorld)
    /\ Legacy.fields b !! "request" = Some (FFun "requestAddon.request").
Proof.
  intros h0.
  destruct (legacy_implement_addon_commute h0 0 _ [] requestAddon constOne
              eq_refl eq_refl eq_refl eq_refl eq_refl eq_refl eq_refl) as [H1 H2].
  eexists. split; [exact H1|]. split; [exact H2|]. split; reflexivity.
Defined.







(* ===================================================================== *)
(** ** The request-handler adapter *)
(* ===================================================================== *)

Lemma then_fulfilled p d k w :
  promiseResolve p = Deferred (Fulfilled d) ->
  then_ p k w = asyncResult (k (Plain d)) w.
Proof. intros H. unfold then_, asyncResult. rewrite H. reflexivity. Qed.

Lemma then_not_fulfilled p k w :
  (forall d, promiseResolve p <> Deferred (Fulfilled d)) ->
  then_ p k w = (Ok (promiseResolve p), w).
Proof.
  intros H. unfold then_. destruct (promiseResolve p) as [d|[|d|e]] eqn:E;
    try reflexivity.
  destruct (H d eq_refl).
Qed.

Lemma asyncResult_promise c w q w' :
  c w = (Ok (Deferred q), w') -> asyncResult c w = (Ok (Deferred q), w').
Proof. intros H. unfold asyncResult. rewrite H. reflexivity. Qed.

Lemma includes_exclusive m :
  Next.includes ["POST"; "PUT"; "PATCH"] m = true ->
  Next.includes ["GET"; "DELETE"] m = false.
Proof.
  unfold Next.includes. simpl.
  destruct (String.eqb_spec m "POST") as [->|_]; [reflexivity|].
  destruct (String.eqb_spec m "PUT") as [->|_]; [reflexivity|].
  destruct (String.eqb_spec m "PATCH") as [->|_]; [reflexivity|].
  discriminate.
Qed.

Lemma fromEntries_snoc entries k v :
  Next.fromEntries (entries ++ [(k, v)]) = <[k := DStr v]> (Next.fromEntries entries).
Proof. unfold Next.fromEntries. rewrite foldl_app. reflexivity. Qed.

(** For [GET] and [DELETE], once the route parameters have arrived the
    blueprint is called with the query entries laid over the route
    parameters (a query entry wins over a route parameter of the same
    name, a repeated query name keeps its last value); the request body
    is never read. *)
Theorem route_read_methods NextResponse_json blueprint request promise params w :
  Next.includes ["GET"; "DELETE"] (Next.method request) = true ->
  promiseResolve promise = Deferred (Fulfilled params) ->
  Next.route NextResponse_json blueprint request promise w
    = asyncResult
        (let* pending :=
           blueprint (Plain (DObj (Next.fromEntries (Next.searchParams request)
                                     ∪ paramsRecord (Plain params)))) in
         then_ pending NextResponse_json) w
  /\ (forall k,
        (Next.fromEntries (Next.searchParams request) ∪ paramsRecord (Plain params)) !! k
        = match Next.fromEntries (Next.searchParams request) !! k with
          | Some v => Some v
          | None => paramsRecord (Plain params) !! k
          end)
  /\ (forall entries k v,
        Next.fromEntries (entries ++ [(k, v)]) !! k = Some (DStr v))
  /\ (forall body,
        Next.route NextResponse_json blueprint
          {| Next.method := Next.method request; Next.json := body;
             Next.searchParams := Next.searchParams request |} promise w
        = Next.route NextResponse_json blueprint request promise w).
Proof.
  intros Hget Hparams.
  assert (Hpost : Next.includes ["POST"; "PUT"; "PATCH"] (Next.method request) = false).
  { destruct (Next.includes ["POST"; "PUT"; "PATCH"] (Next.method request)) eqn:E;
      [|reflexivity].
    apply includes_exclusive in E. congruence. }
  assert (Hroute : forall body,
    Next.route NextResponse_json blueprint
      {| Next.method := Next.method request; Next.json := body;
         Next.searchParams := Next.searchParams request |} promise w
    = asyncResult
        (let* pending :=
           blueprint (Plain (DObj (Next.fromEntries (Next.searchParams request)
                                     ∪ paramsRecord (Plain params)))) in
         then_ pending NextResponse_json) w).
  { intros body. unfold Next.route.
    rewrite (then_fulfilled _ _ _ _ Hparams). simpl Next.method.
    rewrite Hpost, Hget. unfold spread2, paramsRecord. simpl Next.searchParams.
    rewrite (left_id_L ∅ (∪)). reflexivity. }
  split; [|split; [|split]].
  - rewrite <- (Hroute (Next.json request)). destruct request; reflexivity.
  - intros k. rewrite lookup_union.
    destruct (Next.fromEntries (Next.searchParams request) !! k),
      (paramsRecord (Plain params) !! k); reflexivity.
  - intros entries k v. rewrite fromEntries_snoc. apply lookup_insert_eq.
  - intros body. rewrite Hroute, <- (Hroute (Next.json request)).
    destruct request; reflexivity.
Qed.

Lemma asyncResult_returns_promise c w :
  exists q w', asyncResult c w = (Ok (Deferred q), w').
Proof.
  unfold asyncResult. destruct (c w) as [[[d|q]|e] w']; simpl; eauto.
Qed.

Lemma asyncResult_idem c w : asyncResult (asyncResult c) w = asyncResult c w.
Proof.
  destruct (asyncResult_returns_promise c w) as (q & w' & H).
  unfold asyncResult at 1. rewrite H. reflexivity.
Qed.

(** For [POST], [PUT] and [PATCH], once the route parameters and the
    JSON body have arrived the blueprint is called with the route
    parameters plus the whole body under the key [body] (replacing a
    route parameter of that name); the query string is not used.  When
    the body cannot be read the returned promise is rejected and the
    blueprint is not called. *)
Theorem route_write_methods NextResponse_json blueprint request promise params w :
  Next.includes ["POST"; "PUT"; "PATCH"] (Next.method request) = true ->
  promiseResolve promise = Deferred (Fulfilled params) ->
  (forall pendingBody w1 body,
     Next.json request w = (Ok pendingBody, w1) ->
     promiseResolve pendingBody = Deferred (Fulfilled body) ->
     forall entries,
       Next.route NextResponse_json blueprint
         {| Next.method := Next.method request; Next.json := Next.json request;
            Next.searchParams := entries |} promise w
       = asyncResult
           (let* pending :=
              blueprint (Plain (DObj (<["body" := body]> (paramsRecord (Plain params))))) in
            then_ pending NextResponse_json) w1)
  /\ (forall pendingBody w1 e,
        Next.json request w = (Ok pendingBody, w1) ->
        pendingBody = Deferred (Rejected e) ->
        forall other,
          Next.route NextResponse_json other request promise w
          = (Ok (Deferred (Rejected e)), w1))
  /\ (forall e w1,
        Next.json request w = (Throw e, w1) ->
        forall other,
          Next.route NextResponse_json other request promise w
          = (Ok (Deferred (Rejected e)), w1)).
Proof.
  intros Hpost Hparams.
  pose proof (includes_exclusive _ Hpost) as Hget.
  split; [|split].
  - intros pendingBody w1 body Hjson Hbody entries.
    unfold Next.route. rewrite (then_fulfilled _ _ _ _ Hparams).
    simpl Next.method. simpl Next.json. rewrite Hpost.
    unfold asyncResult at 1. unfold bind at 1. rewrite Hjson.
    rewrite (then_fulfilled _ _ _ _ Hbody). rewrite Hget.
    unfold spread2. rewrite (left_id_L ∅ (∪)), <- insert_union_singleton_l.
    destruct (asyncResult_returns_promise
                (let* pending :=
                   blueprint (Plain (DObj (<["body" := body]>
                     (if jstype_eqb (typeof (Plain params)) TObject
                      then spread (Plain params) else ∅)))) in
                 then_ pending (fun result => NextResponse_json result)) w1)
      as (q & w2 & Hq).
    unfold paramsRecord.
    change (fun result : value => NextResponse_json result) with NextResponse_json in *.
    rewrite Hq. reflexivity.
  - intros pendingBody w1 e Hjson -> other.
    unfold Next.route. rewrite (then_fulfilled _ _ _ _ Hparams). rewrite Hpost.
    unfold asyncResult, bind. rewrite Hjson. reflexivity.
  - intros e w1 Hjson other.
    unfold Next.route. rewrite (then_fulfilled _ _ _ _ Hparams). rewrite Hpost.
    unfold asyncResult, bind. rewrite Hjson. reflexivity.
Qed.

Lemma route_write_methods_witness :
  let request := {| Next.method := "POST";
                    Next.json := ret (Deferred (Fulfilled (DObj {[ "n" := DNum 1 ]})));
                    Next.searchParams := [("id", "9")] |} in
  Next.route jsonResponse echo request
    (Deferred (Fulfilled (DObj {[ "id" := DStr "7" ]}))) emptyWorld
  = (Ok (Deferred (Fulfilled
       (DObj {[ "json" := DObj (<["body" := DObj {[ "n" := DNum 1 ]}]>
                                  {[ "id" := DStr "7" ]}) ]}))),
     emptyWorld).
Proof.
  intros request.
  destruct (route_write_methods jsonResponse echo request
              (Deferred (Fulfilled (DObj {[ "id" := DStr "7" ]})))
              (DObj {[ "id" := DStr "7" ]}) emptyWorld eq_refl eq_refl)
    as [Hok _].
  exact (Hok _ emptyWorld (DObj {[ "n" := DNum 1 ]}) eq_refl eq_refl [("id", "9")]).
Defined.

Lemma route_read_methods_witness :
  let request := {| Next.method := "GET"; Next.json := unreadable;
                    Next.searchParams := [("id", "8"); ("id", "9")] |} in
  Next.route jsonResponse echo request
    (Deferred (Fulfilled (DObj {[ "id" := DStr "7" ]}))) emptyWorld
  = (Ok (Deferred (Fulfilled (DObj {[ "json" := DObj {[ "id" := DStr "9" ]} ]}))),
     emptyWorld).
Proof.
  intros request.
  destruct (route_read_methods jsonResponse echo request
              (Deferred (Fulfilled (DObj {[ "id" := DStr "7" ]})))
              (DObj {[ "id" := DStr "7" ]}) emptyWorld eq_refl eq_refl)
    as [Hok _].
  rewrite Hok. vm_compute. reflexivity.
Defined.

(** For any other method (including lower-case spellings) the blueprint
    is called with the route parameters alone: neither the body nor the
    query string is used. *)
Theorem route_other_methods NextResponse_json blueprint request promise params w :
  Next.includes ["POST"; "PUT"; "PATCH"] (Next.method request) = false ->
  Next.includes ["GET"; "DELETE"] (Next.method request) = false ->
  promiseResolve promise = Deferred (Fulfilled params) ->
  forall body entries,
    Next.route NextResponse_json blueprint
      {| Next.method := Next.method request; Next.json := body;
         Next.searchParams := entries |} promise w
    = asyncResult
        (let* pending := blueprint (Plain (DObj (paramsRecord (Plain params)))) in
         then_ pending NextResponse_json) w.
Proof.
  intros Hpost Hget Hparams body entries.
  unfold Next.route. rewrite (then_fulfilled _ _ _ _ Hparams).
  simpl Next.method. rewrite Hpost, Hget.
  unfold spread2, paramsRecord. rewrite !(left_id_L ∅ (∪)). reflexivity.
Qed.

Lemma route_other_methods_witness :
  Next.route jsonResponse echo
    {| Next.method := "post"; Next.json := unreadable;
       Next.searchParams := [("id", "9")] |}
    (Deferred (Fulfilled (DObj {[ "id" := DStr "7" ]}))) emptyWorld
  = (Ok (Deferred (Fulfilled (DObj {[ "json" := DObj {[ "id" := DStr "7" ]} ]}))),
     emptyWorld).
Proof.
  rewrite (route_other_methods jsonResponse echo
             {| Next.method := "post"; Next.json := unreadable;
                Next.searchParams := [] |}
             (Deferred (Fulfilled (DObj {[ "id" := DStr "7" ]})))
             (DObj {[ "id" := DStr "7" ]}) emptyWorld eq_refl eq_refl eq_refl).
  reflexivity.
Defined.

(** The handler never throws: it always returns a promise.  When the
    route parameters are rejected nothing else runs; when the blueprint
    throws synchronously (an unimplemented blueprint, a failed
    validation) on a request without body the promise is rejected with
    that error and no response is built. *)
Theorem route_never_throws NextResponse_json blueprint request promise w :
  (exists q w', Next.route NextResponse_json blueprint request promise w
                = (Ok (Deferred q), w'))
  /\ (forall e, promise = Deferred (Rejected e) ->
        Next.route NextResponse_json blueprint request promise w
        = (Ok (Deferred (Rejected e)), w))
  /\ (forall params e,
        promiseResolve promise = Deferred (Fulfilled params) ->
        Next.includes ["POST"; "PUT"; "PATCH"] (Next.method request) = false ->
        (forall props w0, blueprint props w0 = (Throw e, w0)) ->
        forall respond,
          Next.route respond blueprint request promise w
          = (Ok (Deferred (Rejected e)), w)).
Proof.
  split; [|split].
  - unfold Next.route. apply then_returns_promise.
  - intros e ->. reflexivity.
  - intros params e Hparams Hpost Hthrows respond.
    unfold Next.route. rewrite (then_fulfilled _ _ _ _ Hparams), Hpost.
    unfold asyncResult, bind. rewrite Hthrows. reflexivity.
Qed.

(* ===================================================================== *)
(** ** The addon-style blueprint with [mod] *)
(* ===================================================================== *)

Lemma behaviours_snoc (h : list LegacyMod.Blueprint) b :
  LegacyMod.behaviours (h ++ [b])
  = LegacyMod.behaviours h ++ [LegacyMod.behaviour (LegacyMod.behaviours h) b].
Proof. unfold LegacyMod.behaviours. rewrite foldl_app. reflexivity. Qed.

Lemma behaviours_length (h : list LegacyMod.Blueprint) :
  length (LegacyMod.behaviours h) = length h.
Proof.
  induction h as [|b h IH] using rev_ind; [reflexivity|].
  rewrite behaviours_snoc, !length_app, IH. reflexivity.
Qed.

(** What a blueprint computes depends on the blueprints created before
    it, not on those created after. *)
Lemma behaviours_prefix (h k : list LegacyMod.Blueprint) i :
  i < length h ->
  LegacyMod.behaviours (h ++ k) !! i = LegacyMod.behaviours h !! i.
Proof.
  intros Hi. induction k as [|b k IH] using rev_ind.
  - rewrite app_nil_r. reflexivity.
  - rewrite app_assoc, behaviours_snoc.
    rewrite lookup_app_l; [exact IH|].
    rewrite behaviours_length, length_app. lia.
Qed.

Lemma behaviours_last (h : list LegacyMod.Blueprint) b :
  LegacyMod.behaviours (h ++ [b]) !! length h
  = Some (LegacyMod.behaviour (LegacyMod.behaviours h) b).
Proof.
  rewrite behaviours_snoc.
  rewrite lookup_app_r by (rewrite behaviours_length; lia).
  rewrite behaviours_length, Nat.sub_diag. reflexivity.
Qed.

Lemma behaviours_native (h : list LegacyMod.Blueprint) i b f :
  h !! i = Some b ->
  LegacyMod.implementation b = LegacyMod.Native f ->
  LegacyMod.behaviours h !! i = Some f.
Proof.
  revert i b. induction h as [|x h IH] using rev_ind; intros i b Hi Hf.
  - discriminate.
  - destruct (decide (i < length h)) as [Hlt|Hge].
    + rewrite behaviours_prefix by exact Hlt.
      rewrite lookup_app_l in Hi by exact Hlt. eapply IH; eassumption.
    + pose proof (lookup_lt_Some _ _ _ Hi) as Hlen.
      rewrite length_app in Hlen. simpl in Hlen.
      assert (i = length h) as -> by lia.
      rewrite lookup_app_r, Nat.sub_diag in Hi by lia.
      injection Hi as ->. rewrite behaviours_last.
      unfold LegacyMod.behaviour. rewrite Hf. reflexivity.
Qed.

Lemma call_prefix (h k : list LegacyMod.Blueprint) i props w :
  i < length h ->
  LegacyMod.call (h ++ k) i props w = LegacyMod.call h i props w.
Proof.
  intros Hi. unfold LegacyMod.call. rewrite behaviours_prefix by exact Hi.
  reflexivity.
Qed.

(** The blueprint [mod] returns runs the callback on the receiver. *)
Lemma call_mod (h : list LegacyMod.Blueprint) self b modFn :
  h !! self = Some b ->
  exists d,
    LegacyMod.mod_ self modFn h = Some (length h, h ++ [d])
    /\ LegacyMod.implementation d = LegacyMod.ModOf modFn self
    /\ forall props w,
         LegacyMod.call (h ++ [d]) (length h) props w
         = modFn (LegacyMod.call h self) props w.
Proof.
  intros Hself. eexists. split; [|split].
  - unfold LegacyMod.mod_. rewrite Hself. reflexivity.
  - reflexivity.
  - intros props w. unfold LegacyMod.call at 1. rewrite behaviours_last.
    reflexivity.
Qed.

(** The two pictures of the addon-style blueprint agree where no
    blueprint was derived by [mod]. *)
Lemma embed_agrees (h : list Legacy.Blueprint) (self : nat) props w f a :
  LegacyMod.call (LegacyMod.embed <$> h) self props w = Legacy.call h self props w
  /\ LegacyMod.implement self f (LegacyMod.embed <$> h)
     = (fun rh : nat * list Legacy.Blueprint => (rh.1, LegacyMod.embed <$> rh.2))
         <$> Legacy.implement self f h
  /\ LegacyMod.addon self a (LegacyMod.embed <$> h)
     = (fun rh : nat * list Legacy.Blueprint => (rh.1, LegacyMod.embed <$> rh.2))
         <$> Legacy.addon self a h.
Proof.
  split; [|split].
  - unfold LegacyMod.call, Legacy.call.
    destruct (h !! self) as [b|] eqn:Hb.
    + erewrite behaviours_native;
        [reflexivity | rewrite list_lookup_fmap, Hb; reflexivity | reflexivity].
    + assert (LegacyMod.behaviours (LegacyMod.embed <$> h) !! self = None) as ->.
      { apply lookup_ge_None. rewrite behaviours_length, length_fmap.
        apply lookup_ge_None, Hb. }
      reflexivity.
  - unfold LegacyMod.implement, Legacy.implement.
    rewrite list_lookup_fmap. destruct (h !! self) as [b|]; [|reflexivity].
    simpl. rewrite list_fmap_insert. reflexivity.
  - unfold LegacyMod.addon, Legacy.addon.
    rewrite list_lookup_fmap. destruct (h !! self) as [b|]; [|reflexivity].
    simpl. destruct (Legacy.fields b !! "addons") as [[| |l|]|]; try reflexivity.
    destruct (Legacy.readOnly _); [reflexivity|].
    simpl. rewrite list_fmap_insert. reflexivity.
Qed.

(** [mod] returns a new blueprint and leaves the receiver and every
    other blueprint as they were.  The new blueprint takes over the
    receiver's [key], [description] and [addons] properties and gets the
    factory's own methods; no other property of the receiver is carried
    over, so a field contributed by an addon is not on the derived
    blueprint although the addon is still listed in [addons]. *)
Theorem legacy_mod_drops_addon_fields (h : list LegacyMod.Blueprint) self b modFn :
  h !! self = Some b ->
  exists d,
    LegacyMod.mod_ self modFn h = Some (length h, h ++ [d])
    /\ length h <> self
    /\ (forall i, i < length h -> (h ++ [d]) !! i = h !! i)
    /\ LegacyMod.fields d !! "key" = Some (LegacyMod.property b "key")
    /\ LegacyMod.fields d !! "description"
       = Some (LegacyMod.property b "description")
    /\ LegacyMod.fields d !! "addons"
       = Some (LegacyMod.orEmptyArray (LegacyMod.property b "addons"))
    /\ (forall name, name ∈ ["implement"; "mod"; "addon"; "enforce"; "defaults";
                             "returning"; "async"; "void"] ->
          LegacyMod.fields d !! name = Some (FFun name))
    /\ (forall name, name ∉ baseProperties -> LegacyMod.fields d !! name = None).
Proof.
  intros Hself. pose proof (lookup_lt_Some _ _ _ Hself) as Hlt.
  eexists. split; [|split; [|split; [|split; [|split; [|split; [|split]]]]]].
  - unfold LegacyMod.mod_. rewrite Hself. reflexivity.
  - lia.
  - intros i Hi. apply lookup_app_l, Hi.
  - reflexivity.
  - reflexivity.
  - reflexivity.
  - intros name Hname. simpl.
    repeat (apply elem_of_cons in Hname as [->|Hname]; [reflexivity|]).
    apply elem_of_nil in Hname. destruct Hname.
  - intros name Hname. simpl. unfold baseProperties in Hname.
    rewrite !not_elem_of_cons in Hname.
    destruct Hname as (? & ? & ? & ? & ? & ? & ? & ? & ? & ? & ? & _).
    rewrite !lookup_insert_ne by congruence. apply lookup_empty.
Qed.

Lemma legacy_mod_drops_addon_fields_witness :
  let h0 := snd (LegacyMod.blueprint noOptionsMod []) in
  let h1 := default [] (snd <$> LegacyMod.addon 0 requestAddon h0) in
  exists b1 d,
    h1 !! 0 = Some b1
    /\ LegacyMod.fields b1 !! "request" = Some (FFun "requestAddon.request")
    /\ LegacyMod.mod_ 0 (fun blueprint => blueprint) h1 = Some (1, h1 ++ [d])
    /\ LegacyMod.fields d !! "request" = None
    /\ LegacyMod.fields d !! "addons" = Some (FArr [Legacy.bundle requestAddon]).
Proof.
  intros h0 h1.
  destruct (legacy_mod_drops_addon_fields h1 0 _ (fun blueprint => blueprint) eq_refl)
    as (d & Hmod & _ & _ & _ & _ & Haddons & _ & Hnone).
  eexists _, d. split; [reflexivity|]. split; [reflexivity|].
  split; [exact Hmod|]. split.
  - apply Hnone. intros H.
    repeat (apply elem_of_cons in H as [H|H]; [discriminate|]).
    apply elem_of_nil in H. exact H.
  - rewrite Haddons. reflexivity.
Defined.

(** Late implementation reaches the blueprints derived earlier: a
    blueprint obtained by [mod] calls the receiver whenever it is invoked,
    so after the receiver is given a new implementation the derived
    blueprint runs the callback on that new implementation. *)
Theorem legacy_mod_follows_later_implement
    (h : list LegacyMod.Blueprint) self b modFn newImplementation :
  h !! self = Some b ->
  exists d h2,
    LegacyMod.mod_ self modFn h = Some (length h, h ++ [d])
    /\ LegacyMod.implement self newImplementation (h ++ [d]) = Some (self, h2)
    /\ (forall props w,
          LegacyMod.call (h ++ [d]) (length h) props w
          = modFn (LegacyMod.call h self) props w)
    /\ (forall props w,
          LegacyMod.call h2 (length h) props w
          = modFn newImplementation props w)
    /\ (forall props w,
          LegacyMod.call h2 self props w = newImplementation props w).
Proof.
  intros Hself. pose proof (lookup_lt_Some _ _ _ Hself) as Hlt.
  destruct (call_mod h self b modFn Hself) as (d & Hmod & Hcode & Hcall).
  exists d. eexists. split; [exact Hmod|]. split; [|split; [exact Hcall|]].
  - unfold LegacyMod.implement. rewrite lookup_app_l, Hself by exact Hlt.
    reflexivity.
  - rewrite insert_app_l by exact Hlt.
    set (c := {| LegacyMod.implementation := LegacyMod.Native newImplementation;
                 LegacyMod.fields := LegacyMod.fields b |}).
    assert (Hnew : LegacyMod.behaviours (<[self := c]> h) !! self
                   = Some newImplementation).
    { eapply behaviours_native; [apply list_lookup_insert_eq, Hlt | reflexivity]. }
    split.
    + intros props w. unfold LegacyMod.call.
      replace (length h) with (length (<[self := c]> h)) by apply length_insert.
      rewrite behaviours_last. unfold LegacyMod.behaviour. rewrite Hcode, Hnew.
      reflexivity.
    + intros props w. unfold LegacyMod.call.
      rewrite behaviours_prefix by (rewrite length_insert; exact Hlt).
      rewrite Hnew. reflexivity.
Qed.

Lemma legacy_mod_follows_later_implement_witness :
  let h0 := snd (LegacyMod.blueprint noOptionsMod []) in
  exists h1 h2,
    LegacyMod.void 0 h0 = Some (1, h1)
    /\ LegacyMod.call h1 1 (obj []) emptyWorld
       = (Throw (DError "Not Implemented"), emptyWorld)
    /\ LegacyMod.implement 0 countingCore h1 = Some (0, h2)
    /\ LegacyMod.call h2 1 (obj []) emptyWorld
       = (Ok (Plain DUndefined), World {[ "calls" := DNum 1 ]} []).
Proof.
  intros h0.
  destruct (legacy_mod_follows_later_implement h0 0 _
              (fun blueprint props => let* _ := blueprint props in ret (Plain DUndefined))
              countingCore eq_refl)
    as (d & h2 & Hmod & Himpl & Hbefore & Hafter & _).
  exists (h0 ++ [d]), h2.
  split; [exact Hmod|].
  split; [etransitivity; [exact (Hbefore (obj []) emptyWorld)|reflexivity]|].
  split; [exact Himpl|].
  etransitivity; [exact (Hafter (obj []) emptyWorld)|reflexivity].
Defined.

Lemma viaMod_base (h : list LegacyMod.Blueprint) self b modFn :
  h !! self = Some b ->
  LegacyMod.fields b !! "mod" = Some (FFun "mod") ->
  exists d,
    LegacyMod.viaMod self modFn h = Some (length h, h ++ [d])
    /\ forall props w,
         LegacyMod.call (h ++ [d]) (length h) props w
         = modFn (LegacyMod.call h self) props w.
Proof.
  intros Hself Hmod.
  destruct (call_mod h self b modFn Hself) as (d & Hd & _ & Hcall).
  exists d. split; [|exact Hcall].
  unfold LegacyMod.viaMod. rewrite Hself, Hmod. exact Hd.
Qed.



(** On the addon-style blueprint, [async] returns a new blueprint that
    never throws: what the receiver returns comes back as a promise, and
    an error the receiver throws synchronously comes back as a rejected
    promise.  [void] returns a new blueprint that runs the receiver,
    gives [undefined] in place of its result and lets its error through. *)
Theorem legacy_async_and_void (h : list LegacyMod.Blueprint) self b :
  h !! self = Some b ->
  LegacyMod.fields b !! "mod" = Some (FFun "mod") ->
  (exists d,
     LegacyMod.async self h = Some (length h, h ++ [d])
     /\ forall props w,
          LegacyMod.call (h ++ [d]) (length h) props w
          = match LegacyMod.call h self props w with
            | (Ok result, w') => (Ok (promiseResolve result), w')
            | (Throw e, w') => (Ok (Deferred (Rejected e)), w')
            end)
  /\ (exists d,
        LegacyMod.void self h = Some (length h, h ++ [d])
        /\ forall props w,
             LegacyMod.call (h ++ [d]) (length h) props w
             = match LegacyMod.call h self props w with
               | (Ok _, w') => (Ok (Plain DUndefined), w')
               | (Throw e, w') => (Throw e, w')
               end).
Proof.
  intros Hself Hmod. split.
  - destruct (viaMod_base h self b
                (fun blueprint props w =>
                   match blueprint props w with
                   | (Ok result, w') => (Ok (promiseResolve result), w')
                   | (Throw error, w') => (Ok (Deferred (Rejected error)), w')
                   end) Hself Hmod) as (d & Hd & Hcall).
    exists d. split; [exact Hd|]. intros props w. rewrite Hcall. reflexivity.
  - destruct (viaMod_base h self b
                (fun blueprint props =>
                   let* _ := blueprint props in ret (Plain DUndefined))
                Hself Hmod) as (d & Hd & Hcall).
    exists d. split; [exact Hd|]. intros props w. rewrite Hcall.
    unfold bind. destruct (LegacyMod.call h self props w) as [[r|e] w']; reflexivity.
Qed.

Lemma legacy_async_and_void_witness :
  let h0 := snd (LegacyMod.blueprint noOptionsMod []) in
  exists h1,
    LegacyMod.async 0 h0 = Some (1, h1)
    /\ LegacyMod.call h1 1 (obj []) emptyWorld
       = (Ok (Deferred (Rejected (DError "Not Implemented"))), emptyWorld).
Proof.
  intros h0.
  destruct (legacy_async_and_void h0 0 _ eq_refl eq_refl)
    as ((d & Ha & Hcall) & _).
  exists (h0 ++ [d]). split; [exact Ha|].
  etransitivity; [exact (Hcall _ emptyWorld)|reflexivity].
Defined.

(* ===================================================================== *)
(** ** Promise results of the core logic *)
(* ===================================================================== *)

(** When the core logic returns a promise, the output side is chained
    onto it: a rejected or pending promise comes back as it is and no
    output mapper, result validator or after hook runs, whatever they
    are; a fulfilled promise gives a promise of what the output side
    makes of its value, rejected if the output side throws. *)
Theorem promise_result_of_core currentState impl props w validatedProps w1 p w2 :
  implementation currentState = Some impl ->
  beforeCore currentState props w = (Ok validatedProps, w1) ->
  impl validatedProps w1 = (Ok (Deferred p), w2) ->
  callableBlueprint currentState props w =
  match p with
  | Fulfilled d =>
      asyncResult (processResultAndFinalize currentState validatedProps (Plain d)) w2
  | _ => (Ok (Deferred p), w2)
  end.
Proof.
  intros Himpl Hbefore Hcore. rewrite callableBlueprint_beforeCore.
  unfold bind. rewrite Hbefore. unfold runCore. rewrite Himpl.
  unfold bind. rewrite Hcore. simpl negb. rewrite andb_false_r. simpl isThenable.
  cbv iota. destruct p as [|d|e]; reflexivity.
Qed.

Lemma promise_result_of_core_witness :
  callableBlueprint
    (Chain.after (Chain.output (initialState (ArgFunction rejectingCore)) secondArg)
       countingAfter)
    (obj []) emptyWorld
  = (Ok (Deferred (Rejected (DError "core failed"))), emptyWorld).
Proof.
  rewrite (promise_result_of_core
             (Chain.after (Chain.output (initialState (ArgFunction rejectingCore))
                             secondArg) countingAfter)
             rejectingCore (obj []) emptyWorld (obj []) emptyWorld
             (Rejected (DError "core failed")) emptyWorld eq_refl eq_refl eq_refl).
  reflexivity.
Defined.
